(** * Technical-analysis service: indicators, zones and signals

    A shallow embedding of the TypeScript technical-analysis service
    ([calculateEMA], [calculateVWAP], [calculateMACD],
    [detectSupplyDemandZones], [consolidateZones], [detectEMABounceSignal],
    [detectSupplyDemandSignals] and [TechnicalAnalysisService.analyzeData])
    together with the properties its specification states about it, and of
    the parts of the exchange client the service is fed by
    ([normalizeTimeframe], [getTimeframeMs], [getBybitKlines], [makeAPICall]
    and [ExchangeAPI.getAllTickers]).

    Conventions of the embedding.
    - A JavaScript [number] that holds a price, a volume or an indicator is
      an exact rational ([Qc]); arithmetic is field arithmetic.  The
      embedding therefore describes the runs in which every number stays
      finite.  [x / 0] is [0] in [Qc] (JavaScript: an infinity or NaN); where
      the source guards a division the guard is modelled, and a second,
      checked rendering of the guarded code shows the guard suffices; where
      it does not (the bounce quality divides by the tolerance price), the
      statements about the quotient assume a divisor that is not zero.
    - The rounding of binary64 is not modelled: a value of the embedding
      is the exact value of the formula the code evaluates in binary64.
      The statements give such formulas, comparisons of stored values and
      the shape of results; bounds and identities that hold of exact
      arithmetic only (a constant series keeps its average) are not
      stated.
    - [parseFloat] sits at the boundary: a candle of the embedding carries the
      numbers its decimal strings denote.
    - Timestamps are integers ([Z], milliseconds); lengths, periods and
      indices are [nat].
    - Reading an array element that does not exist is a fault of the
      embedding ([None]).  JavaScript answers [undefined] there, which turns
      into NaN in arithmetic and into a [TypeError] on a property access.
      The averages the bounce scan reads are the exception: they are only
      compared, so a missing one stays [undefined] and every comparison with
      it is false, as in JavaScript.
    - [Date.now()] is an input: a function from the iteration that asks to
      the clock reading it gets.
    - The network is an input as well: what an attempt or a request comes
      to is given by a function of its number, and the waits made with
      [setTimeout] are recorded in a list. *)

From Stdlib Require Import QArith Qcanon.
From stdpp Require Import base numbers list strings pretty sorting.

Local Open Scope Qc_scope.

(** ** Numbers *)

Definition Qc_of_nat (n : nat) : Qc := Qc_of_Z (Z.of_nat n).

(** [Math.min] and [Math.max] on two finite numbers. *)
Definition Math_min (a b : Qc) : Qc := if decide (a ≤ b) then a else b.
Definition Math_max (a b : Qc) : Qc := if decide (a ≤ b) then b else a.

(** [Math.abs]. *)
Definition Math_abs (a : Qc) : Qc := if decide (0 ≤ a) then a else - a.

(** [xs.reduce((sum, val) => sum + val, 0)]. *)
Definition reduce_sum (xs : list Qc) : Qc := foldl Qcplus 0 xs.

(** The arithmetic mean as the specification words it: the sum of the
    elements over their number. *)
Definition simple_average (xs : list Qc) : Qc :=
  foldr Qcplus 0 xs / Qc_of_nat (length xs).

(** ** Exponential moving average *)

(** The body of the [for] loop of [calculateEMA]: [last] is
    [ema[ema.length - 1]], [rest] the elements [data[i]] still to visit. *)
Fixpoint ema_loop (multiplier last : Qc) (rest : list Qc) : list Qc :=
  match rest with
  | [] => []
  | x :: rest' =>
      let currentEMA := x * multiplier + last * (1 - multiplier) in
      currentEMA :: ema_loop multiplier currentEMA rest'
  end.

Definition calculateEMA (data : list Qc) (period : nat) : list Qc :=
  if decide (length data < period)%nat then []
  else
    let multiplier := 2 / (Qc_of_nat period + 1) in
    let sma := reduce_sum (take period data) / Qc_of_nat period in
    sma :: ema_loop multiplier sma (drop period data).

(** ** Candles *)

(** [KlineData] of the exchange types, with the price and volume strings
    already read by [parseFloat].  The optional fields of the interface
    ([quoteAssetVolume], [numberOfTrades], ...) are never read by the
    service and are left out. *)
Module KlineData.
Record t := mk {
  openTime : Z;
  open : Qc;
  high : Qc;
  low : Qc;
  close : Qc;
  volume : Qc;
  closeTime : Z
}.
End KlineData.

(** [klineData.slice(-n)]: the last [n] elements, all of them when there are
    fewer. *)
Definition slice_last {A : Type} (n : nat) (l : list A) : list A :=
  drop (length l - n) l.

(** ** Volume-weighted average price *)

Module VWAPData.
Record t := mk { timestamp : Z; vwap : Qc; volume : Qc }.
End VWAPData.

Definition typicalPrice (candle : KlineData.t) : Qc :=
  (KlineData.high candle + KlineData.low candle + KlineData.close candle)
  / Qc_of_Z 3.

(** The [for ... of] loop of [calculateVWAP], started from given values of
    the two running sums. *)
Fixpoint vwap_loop (cumulativeTPV cumulativeVolume : Qc)
    (klineData : list KlineData.t) : list VWAPData.t :=
  match klineData with
  | [] => []
  | candle :: rest =>
      let volume := KlineData.volume candle in
      let tpv := typicalPrice candle * volume in
      let cumulativeTPV := cumulativeTPV + tpv in
      let cumulativeVolume := cumulativeVolume + volume in
      let vwap :=
        if decide (0 < cumulativeVolume)
        then cumulativeTPV / cumulativeVolume
        else typicalPrice candle in
      VWAPData.mk (KlineData.closeTime candle) vwap volume
        :: vwap_loop cumulativeTPV cumulativeVolume rest
  end.

Definition calculateVWAP (klineData : list KlineData.t) : list VWAPData.t :=
  vwap_loop 0 0 klineData.

(** The same loop with the division read as a partial operation: dividing by
    zero is a fault. *)
Definition checked_div (a b : Qc) : option Qc :=
  if decide (b = 0) then None else Some (a / b).

Fixpoint vwap_loop_checked (cumulativeTPV cumulativeVolume : Qc)
    (klineData : list KlineData.t) : option (list VWAPData.t) :=
  match klineData with
  | [] => Some []
  | candle :: rest =>
      let volume := KlineData.volume candle in
      let tpv := typicalPrice candle * volume in
      let cumulativeTPV := cumulativeTPV + tpv in
      let cumulativeVolume := cumulativeVolume + volume in
      vwap ← (if decide (0 < cumulativeVolume)
              then checked_div cumulativeTPV cumulativeVolume
              else Some (typicalPrice candle));
      points ← vwap_loop_checked cumulativeTPV cumulativeVolume rest;
      Some (VWAPData.mk (KlineData.closeTime candle) vwap volume :: points)
  end.

Definition calculateVWAP_checked (klineData : list KlineData.t)
    : option (list VWAPData.t) :=
  vwap_loop_checked 0 0 klineData.

(** The cumulative volume and the cumulative (typical price × volume) up to
    and including candle [i], as the specification words them. *)
Definition cumulative_volume (klineData : list KlineData.t) (i : nat) : Qc :=
  foldr Qcplus 0 (KlineData.volume <$> take (S i) klineData).

Definition cumulative_tpv (klineData : list KlineData.t) (i : nat) : Qc :=
  foldr Qcplus 0
    ((λ c, typicalPrice c * KlineData.volume c) <$> take (S i) klineData).

(** ** Supply and demand zones *)

Inductive ZoneSide := supply | demand.
Inductive ZoneStrength := weak | medium | strong.
Inductive ZonePattern := RBR | DBD | DBR | RBD.

Global Instance ZoneSide_eq_dec : EqDecision ZoneSide.
Proof. solve_decision. Defined.
Global Instance ZoneStrength_eq_dec : EqDecision ZoneStrength.
Proof. solve_decision. Defined.
Global Instance ZonePattern_eq_dec : EqDecision ZonePattern.
Proof. solve_decision. Defined.

Module SupplyDemandZone.
Record t := mk {
  type : ZoneSide;
  high : Qc;
  low : Qc;
  timestamp : Z;
  strength : ZoneStrength;
  zoneType : ZonePattern;
  isValid : bool
}.
End SupplyDemandZone.

(** The zones one turn of the loop of [detectSupplyDemandZones] pushes, from
    the candle at [i] and the one before it. *)
Definition zone_candidates (current prev : KlineData.t)
    : list SupplyDemandZone.t :=
  let currentHigh := KlineData.high current in
  let currentLow := KlineData.low current in
  let currentOpen := KlineData.open current in
  let currentClose := KlineData.close current in
  let prevHigh := KlineData.high prev in
  let prevLow := KlineData.low prev in
  let prevClose := KlineData.close prev in
  let bodySize := Math_abs (currentClose - currentOpen) in
  let upperWick := currentHigh - Math_max currentOpen currentClose in
  let lowerWick := Math_min currentOpen currentClose - currentLow in
  let totalRange := currentHigh - currentLow in
  (if bool_decide (prevClose < currentOpen)
      && bool_decide (prevHigh < currentClose)
   then [SupplyDemandZone.mk demand currentHigh (Math_min currentLow prevLow)
           (KlineData.closeTime current) strong DBR true]
   else [])
  ++ (if bool_decide (currentOpen < prevClose)
         && bool_decide (currentClose < prevLow)
      then [SupplyDemandZone.mk supply (Math_max currentHigh prevHigh)
              currentLow (KlineData.closeTime current) strong RBD true]
      else [])
  ++ (if bool_decide (bodySize * 2 < lowerWick)
         && bool_decide (upperWick * 2 < lowerWick)
         && bool_decide (0 < totalRange)
      then [SupplyDemandZone.mk demand (Math_max currentOpen currentClose)
              currentLow (KlineData.closeTime current)
              (if decide (bodySize * Qc_of_Z 3 < lowerWick) then strong else medium)
              DBR true]
      else [])
  ++ (if bool_decide (bodySize * 2 < upperWick)
         && bool_decide (lowerWick * 2 < upperWick)
         && bool_decide (0 < totalRange)
      then [SupplyDemandZone.mk supply currentHigh
              (Math_min currentOpen currentClose)
              (KlineData.closeTime current)
              (if decide (bodySize * Qc_of_Z 3 < upperWick) then strong else medium)
              RBD true]
      else []).

(** One turn of the loop at index [i].  [current], [prev] and [next] are
    dereferenced ([next.high] and [next.low] are parsed, though not used);
    [prev2] and [next2] are only bound. *)
Definition zones_at (klineData : list KlineData.t) (i : nat)
    : option (list SupplyDemandZone.t) :=
  current ← klineData !! i;
  prev ← klineData !! (i - 1)%nat;
  next ← klineData !! (i + 1)%nat;
  Some (zone_candidates current prev).

Definition getZoneStrengthValue (strength : ZoneStrength) : nat :=
  match strength with weak => 1 | medium => 2 | strong => 3 end.

(** The [overlap] test of [consolidateZones]. *)
Definition zones_overlap (zone existingZone : SupplyDemandZone.t) : bool :=
  bool_decide (SupplyDemandZone.type zone = SupplyDemandZone.type existingZone)
  && bool_decide (SupplyDemandZone.low zone ≤ SupplyDemandZone.high existingZone)
  && bool_decide (SupplyDemandZone.low existingZone ≤ SupplyDemandZone.high zone).

(** The inner loop of [consolidateZones], with [n] indices still to visit
    (the next one is [n - 1]).  It returns the accepted zones and
    [shouldAdd]. *)
Fixpoint scan_consolidated (zone : SupplyDemandZone.t)
    (consolidated : list SupplyDemandZone.t) (n : nat)
    : option (list SupplyDemandZone.t * bool) :=
  match n with
  | O => Some (consolidated, true)
  | S i =>
      existingZone ← consolidated !! i;
      if zones_overlap zone existingZone then
        let zoneStrength :=
          getZoneStrengthValue (SupplyDemandZone.strength zone) in
        let existingStrength :=
          getZoneStrengthValue (SupplyDemandZone.strength existingZone) in
        Some (if decide (existingStrength < zoneStrength)%nat
              then <[i := zone]> consolidated
              else consolidated, false)
      else scan_consolidated zone consolidated i
  end.

(** The outer loop of [consolidateZones]. *)
Fixpoint consolidate_loop (consolidated zones : list SupplyDemandZone.t)
    : option (list SupplyDemandZone.t) :=
  match zones with
  | [] => Some consolidated
  | zone :: rest =>
      '(consolidated', shouldAdd) ←
        scan_consolidated zone consolidated (length consolidated);
      consolidate_loop
        (if shouldAdd : bool then consolidated' ++ [zone] else consolidated')
        rest
  end.

Definition consolidateZones (zones : list SupplyDemandZone.t)
    : option (list SupplyDemandZone.t) :=
  slice_last 20 <$> consolidate_loop [] zones.

(** The [for] loop of [detectSupplyDemandZones] over the indices still to
    visit: the zones pushed, in detection order. *)
Fixpoint zone_loop (klineData : list KlineData.t) (indices : list nat)
    : option (list SupplyDemandZone.t) :=
  match indices with
  | [] => Some []
  | i :: rest =>
      pushed ← zones_at klineData i;
      later ← zone_loop klineData rest;
      Some (pushed ++ later)
  end.

(** [for (let i = 2; i < klineData.length - 2; i++)]. *)
Definition zone_scan (klineData : list KlineData.t)
    : option (list SupplyDemandZone.t) :=
  zone_loop klineData (seq 2 (length klineData - 4)).

Definition detectSupplyDemandZones (klineData : list KlineData.t)
    : option (list SupplyDemandZone.t) :=
  if decide (length klineData < 10)%nat then Some []
  else zones ← zone_scan klineData; consolidateZones zones.

(** ** Signals from supply and demand zones *)

Inductive SignalSide := buy | sell.

Global Instance SignalSide_eq_dec : EqDecision SignalSide.
Proof. solve_decision. Defined.

Module SupplyDemandSignal.
Record t := mk {
  timestamp : Z;
  type : SignalSide;
  price : Qc;
  zone : SupplyDemandZone.t;
  entryReason : string;
  stopLoss : Qc;
  takeProfit : Qc;
  riskReward : Qc;
  confidence : Qc
}.
End SupplyDemandSignal.

(** The text [`${zone.zoneType}`] interpolates. *)
Definition zoneType_text (pattern : ZonePattern) : string :=
  match pattern with
  | RBR => "RBR" | DBD => "DBD" | DBR => "DBR" | RBD => "RBD"
  end.

Definition getZoneConfidence (zone : SupplyDemandZone.t) : Qc :=
  let confidence := Qc_of_Z 50 in
  let confidence :=
    match SupplyDemandZone.strength zone with
    | strong => confidence + Qc_of_Z 30
    | medium => confidence + Qc_of_Z 15
    | weak => confidence
    end in
  let confidence :=
    match SupplyDemandZone.zoneType zone with
    | DBR | RBD => confidence + Qc_of_Z 20
    | RBR | DBD => confidence
    end in
  Math_min (Qc_of_Z 100) confidence.

(** The body of the inner loop of [detectSupplyDemandSignals]: the signals
    pushed for one candle and one zone.  [0.99] and [1.01] are the decimal
    fractions. *)
Definition zone_signals (candle : KlineData.t) (zone : SupplyDemandZone.t)
    : list SupplyDemandSignal.t :=
  let currentPrice := KlineData.close candle in
  let currentLow := KlineData.low candle in
  let currentHigh := KlineData.high candle in
  let zoneHigh := SupplyDemandZone.high zone in
  let zoneLow := SupplyDemandZone.low zone in
  if negb (SupplyDemandZone.isValid zone) then []
  else
    let priceInZone :=
      bool_decide (currentLow ≤ zoneHigh)
      && bool_decide (zoneLow ≤ currentHigh) in
    if priceInZone then
      if bool_decide (SupplyDemandZone.type zone = demand)
         && bool_decide (zoneLow < currentPrice)
      then
        let stopLoss := zoneLow * Q2Qc (99 # 100) in
        let takeProfit := zoneHigh + (zoneHigh - zoneLow) * 2 in
        let riskReward :=
          (takeProfit - currentPrice) / (currentPrice - stopLoss) in
        [SupplyDemandSignal.mk (KlineData.closeTime candle) buy currentPrice
           zone
           ("Price bounced from "
              +:+ zoneType_text (SupplyDemandZone.zoneType zone)
              +:+ " demand zone")
           stopLoss takeProfit riskReward (getZoneConfidence zone)]
      else if bool_decide (SupplyDemandZone.type zone = supply)
              && bool_decide (currentPrice < zoneHigh)
      then
        let stopLoss := zoneHigh * Q2Qc (101 # 100) in
        let takeProfit := zoneLow - (zoneHigh - zoneLow) * 2 in
        let riskReward :=
          (currentPrice - takeProfit) / (stopLoss - currentPrice) in
        [SupplyDemandSignal.mk (KlineData.closeTime candle) sell currentPrice
           zone
           ("Price rejected from "
              +:+ zoneType_text (SupplyDemandZone.zoneType zone)
              +:+ " supply zone")
           stopLoss takeProfit riskReward (getZoneConfidence zone)]
      else []
    else [].

Definition detectSupplyDemandSignals (klineData : list KlineData.t)
    (zones : list SupplyDemandZone.t) : list SupplyDemandSignal.t :=
  if bool_decide (length klineData = 0%nat)
     || bool_decide (length zones = 0%nat)
  then []
  else
    let recentCandles := slice_last 50 klineData in
    candle ← recentCandles; zone ← zones; zone_signals candle zone.

(** ** MACD *)

Module MACDData.
Record t := mk { timestamp : Z; macd : Qc; signal : Qc; histogram : Qc }.
End MACDData.

(** [xs[i]] for an index computed by subtraction, which may be negative. *)
Definition get_Z {A : Type} (xs : list A) (i : Z) : option A :=
  if decide (0 ≤ i)%Z then xs !! Z.to_nat i else None.

(** [macdLine.push(fastEMA[i + startIndex] - slowEMA[i])]. *)
Definition macd_line_at (fastEMA slowEMA : list Qc) (startIndex : Z)
    (i : nat) : option Qc :=
  fast ← get_Z fastEMA (Z.of_nat i + startIndex);
  slow ← slowEMA !! i;
  Some (fast - slow).

(** The point pushed at iteration [i] of the second loop of
    [calculateMACD]; [now i] is what [Date.now()] answers there. *)
Definition macd_point_at (now : nat → Z) (macdLine signalLine : list Qc)
    (signalStartIndex : Z) (i : nat) : option MACDData.t :=
  macd ← get_Z macdLine (Z.of_nat i + signalStartIndex);
  signal ← signalLine !! i;
  Some (MACDData.mk
          (now i - (Z.of_nat (length signalLine) - Z.of_nat i - 1) * 60000)%Z
          macd signal (macd - signal)).

Definition calculateMACD (now : nat → Z) (prices : list Qc)
    (fastPeriod slowPeriod signalPeriod : nat) : option (list MACDData.t) :=
  let fastEMA := calculateEMA prices fastPeriod in
  let slowEMA := calculateEMA prices slowPeriod in
  if bool_decide (length fastEMA = 0%nat)
     || bool_decide (length slowEMA = 0%nat)
  then Some []
  else
    let startIndex := (Z.of_nat slowPeriod - Z.of_nat fastPeriod)%Z in
    macdLine ← mapM (macd_line_at fastEMA slowEMA startIndex)
                 (seq 0 (length slowEMA));
    let signalLine := calculateEMA macdLine signalPeriod in
    let signalStartIndex :=
      (Z.of_nat (length macdLine) - Z.of_nat (length signalLine))%Z in
    mapM (macd_point_at now macdLine signalLine signalStartIndex)
      (seq 0 (length signalLine)).

(** ** EMA bounce signals *)

Module EMABounceSignal.
Record t := mk {
  timestamp : Z;
  type : SignalSide;
  price : Qc;
  ema9 : Qc;
  ema20 : Qc;
  ema200 : Qc;
  vwap : Qc;
  macdLine : Qc;
  macdSignal : Qc;
  bullishStack : bool;
  priceAboveVWAP : bool;
  macdBullish : bool;
  bounceConfirmed : bool;
  confidence : Qc
}.
End EMABounceSignal.

(** The argument object of [calculateSignalConfidence]. *)
Module Factors.
Record t := mk {
  bullStack : bool;
  priceAboveVWAP : bool;
  macdBull : bool;
  bounceQuality : Qc;
  volumeConfirmation : bool
}.
End Factors.

Definition calculateSignalConfidence (factors : Factors.t) : Qc :=
  let confidence := 0 in
  let confidence :=
    if Factors.bullStack factors then confidence + Qc_of_Z 25
    else confidence in
  let confidence :=
    if Factors.priceAboveVWAP factors then confidence + Qc_of_Z 20
    else confidence in
  let confidence :=
    if Factors.macdBull factors then confidence + Qc_of_Z 20
    else confidence in
  let confidence :=
    if Factors.volumeConfirmation factors then confidence + Qc_of_Z 15
    else confidence in
  let confidence :=
    confidence
    + Math_max 0 (Qc_of_Z 20 - Factors.bounceQuality factors * Qc_of_Z 100) in
  Math_min (Qc_of_Z 100) (Math_max 0 confidence).

(** The two local variables the scan of [detectEMABounceSignal] carries from
    one bar to the next. *)
Module BounceState.
Record t := mk { waitBounce : bool; barsWaited : Z }.
Definition initial : t := mk false 0.
End BounceState.

(** The arrays and parameters the loop body of [detectEMABounceSignal]
    reads. *)
Module BounceEnv.
Record t := mk {
  klineData : list KlineData.t;
  vwapData : list VWAPData.t;
  ema9 : list Qc;
  ema20 : list Qc;
  ema200 : list Qc;
  macdData : list MACDData.t;
  minLength : nat;
  startIndex : nat;
  tolPct : Qc;
  maxWait : Z
}.
End BounceEnv.

(** [a < b] and [a <= b] on numbers read from arrays: a read past the
    end is [undefined], and a comparison with it is false. *)
Definition num_lt (a b : option Qc) : bool :=
  match a, b with
  | Some x, Some y => bool_decide (x < y)
  | _, _ => false
  end.

Definition num_le (a b : option Qc) : bool :=
  match a, b with
  | Some x, Some y => bool_decide (x ≤ y)
  | _, _ => false
  end.

(** One turn of the loop of [detectEMABounceSignal] at [i]: the state after
    it and the signals it pushes (none or one).  The candle and the MACD
    point are dereferenced; the averages are numbers that are only compared
    and multiplied, so a missing one stays [undefined] until a signal is
    built from it.  The quotient of the bounce quality is not guarded in the
    source: with a tolerance price of zero JavaScript leaves the finite
    numbers (NaN or an infinity) where [Qc] gives 0, so what is stated about
    the confidence assumes a positive tolerance price. *)
Definition bounce_step (env : BounceEnv.t) (i : nat) (st : BounceState.t)
    : option (BounceState.t * list EMABounceSignal.t) :=
  let ema9 := BounceEnv.ema9 env in
  let ema20 := BounceEnv.ema20 env in
  let vwapData := BounceEnv.vwapData env in
  let minLength := Z.of_nat (BounceEnv.minLength env) in
  let currentIndex := (BounceEnv.startIndex env + i)%nat in
  current ← BounceEnv.klineData env !! currentIndex;
  let currentClose := KlineData.close current in
  let currentLow := KlineData.low current in
  let currentEma9 :=
    get_Z ema9 (Z.of_nat (length ema9) - minLength + Z.of_nat i) in
  let currentEma20 :=
    get_Z ema20 (Z.of_nat (length ema20) - minLength + Z.of_nat i) in
  let currentEma200 := BounceEnv.ema200 env !! i in
  let prevEma9 :=
    get_Z ema9 (Z.of_nat (length ema9) - minLength + Z.of_nat i - 1) in
  let prevEma20 :=
    get_Z ema20 (Z.of_nat (length ema20) - minLength + Z.of_nat i - 1) in
  let currentVwap :=
    match get_Z vwapData
            (Z.of_nat (length vwapData) - minLength + Z.of_nat i) with
    | Some point => VWAPData.vwap point
    | None => 0
    end in
  currentMacd ← BounceEnv.macdData env !! i;
  let bullStack :=
    num_lt currentEma20 currentEma9 && num_lt currentEma200 currentEma20 in
  let emaCrossUp :=
    num_le prevEma9 prevEma20
    && num_lt currentEma20 currentEma9
    && num_lt currentEma200 currentEma9 in
  let tolPrice :=
    (λ e9, e9 * (1 + BounceEnv.tolPct env / Qc_of_Z 100)) <$> currentEma9 in
  let bounce :=
    num_le (Some currentLow) tolPrice
    && num_lt currentEma9 (Some currentClose) in
  let priceAboveVWAP := bool_decide (currentVwap < currentClose) in
  let macdBull :=
    bool_decide (MACDData.signal currentMacd < MACDData.macd currentMacd) in
  let st :=
    if emaCrossUp then BounceState.mk true 0
    else if BounceState.waitBounce st
         then BounceState.mk true (BounceState.barsWaited st + 1)
         else st in
  let st :=
    if negb bullStack
       || (bool_decide (0 < BounceEnv.maxWait env)%Z
           && bool_decide
                (BounceEnv.maxWait env < BounceState.barsWaited st)%Z)
    then BounceState.mk false 0
    else st in
  let buySignal :=
    BounceState.waitBounce st && bounce && priceAboveVWAP && macdBull in
  if buySignal then
    e9 ← currentEma9;
    e20 ← currentEma20;
    e200 ← currentEma200;
    let tolPrice := e9 * (1 + BounceEnv.tolPct env / Qc_of_Z 100) in
    let confidence :=
      calculateSignalConfidence
        (Factors.mk bullStack priceAboveVWAP macdBull
           ((tolPrice - currentLow) / tolPrice)
           (bool_decide (0 < KlineData.volume current))) in
    Some (BounceState.mk false 0,
          [EMABounceSignal.mk (KlineData.closeTime current) buy currentClose
             e9 e20 e200 currentVwap
             (MACDData.macd currentMacd) (MACDData.signal currentMacd)
             bullStack priceAboveVWAP macdBull bounce confidence])
  else Some (st, []).

(** The loop over the indices still to visit, from the state [st]. *)
Fixpoint bounce_loop (env : BounceEnv.t) (indices : list nat)
    (st : BounceState.t) : option (list EMABounceSignal.t) :=
  match indices with
  | [] => Some []
  | i :: rest =>
      '(st', pushed) ← bounce_step env i st;
      later ← bounce_loop env rest st';
      Some (pushed ++ later)
  end.

Definition detectEMABounceSignal (now : nat → Z)
    (klineData : list KlineData.t) (vwapData : list VWAPData.t)
    (fastLen medLen slowLen macdFast macdSlow macdSig : nat)
    (tolPct : Qc) (maxWait : Z) : option (list EMABounceSignal.t) :=
  if decide (length klineData < slowLen)%nat then Some []
  else
    let closePrices := KlineData.close <$> klineData in
    let ema9 := calculateEMA closePrices fastLen in
    let ema20 := calculateEMA closePrices medLen in
    let ema200 := calculateEMA closePrices slowLen in
    macdData ← calculateMACD now closePrices macdFast macdSlow macdSig;
    let minLength :=
      (length ema200 `min` (length macdData `min` length vwapData))%nat in
    let startIndex := (length klineData - minLength)%nat in
    bounce_loop
      (BounceEnv.mk klineData vwapData ema9 ema20 ema200 macdData
         minLength startIndex tolPct maxWait)
      (seq 1 (minLength - 1)) BounceState.initial.

(** The default values of the optional parameters. *)
Definition default_tolPct : Qc := Q2Qc (5 # 100).
Definition default_maxWait : Z := 30.

(** ** The analysis service *)

Inductive Exchange := binance | bybit.
Inductive TradingType := spot | futures.
Inductive Timeframe :=
  tf_1m | tf_5m | tf_15m | tf_30m | tf_1h | tf_4h | tf_1d | tf_1w | tf_1M.
Inductive Strategy := ema_bounce | supply_demand.

Module EMAData.
Record t := mk { timestamp : Z; ema9 : Qc; ema20 : Qc; ema200 : Qc }.
End EMAData.

(** [EMABounceSignal | SupplyDemandSignal]. *)
Inductive SignalData :=
  | BounceData (signal : EMABounceSignal.t)
  | ZoneData (signal : SupplyDemandSignal.t).

Module TradingSignal.
Record t := mk {
  id : string;
  symbol : string;
  exchange : Exchange;
  tradingType : TradingType;
  timeframe : Timeframe;
  timestamp : Z;
  type : SignalSide;
  price : Qc;
  strategy : Strategy;
  signalData : SignalData;
  isActive : bool;
  confidence : Qc
}.
End TradingSignal.

Module Analysis.
Record t := mk {
  emaData : list EMAData.t;
  vwapData : list VWAPData.t;
  macdData : list MACDData.t;
  supplyDemandZones : list SupplyDemandZone.t;
  emaBounceSignals : list EMABounceSignal.t;
  supplyDemandSignals : list SupplyDemandSignal.t;
  allSignals : list TradingSignal.t
}.
End Analysis.

(** The point pushed at iteration [i] of the [emaData] loop. *)
Definition ema_point_at (klineData : list KlineData.t)
    (ema9 ema20 ema200 : list Qc) (minLength startIndex i : nat)
    : option EMAData.t :=
  candle ← klineData !! (startIndex + i)%nat;
  e9 ← ema9 !! (length ema9 - minLength + i)%nat;
  e20 ← ema20 !! (length ema20 - minLength + i)%nat;
  e200 ← ema200 !! i;
  Some (EMAData.mk (KlineData.closeTime candle) e9 e20 e200).

(** The two [map] callbacks that wrap a signal into a [TradingSignal];
    [pretty] writes an integer in decimal, as the template literal does. *)
Definition wrap_bounce (exchange : Exchange) (tradingType : TradingType)
    (symbol : string) (timeframe : Timeframe) (signal : EMABounceSignal.t)
    : TradingSignal.t :=
  TradingSignal.mk ("ema_" +:+ pretty (EMABounceSignal.timestamp signal))
    symbol exchange tradingType timeframe
    (EMABounceSignal.timestamp signal) (EMABounceSignal.type signal)
    (EMABounceSignal.price signal) ema_bounce (BounceData signal) true
    (EMABounceSignal.confidence signal).

Definition wrap_zone (exchange : Exchange) (tradingType : TradingType)
    (symbol : string) (timeframe : Timeframe) (signal : SupplyDemandSignal.t)
    : TradingSignal.t :=
  TradingSignal.mk ("sd_" +:+ pretty (SupplyDemandSignal.timestamp signal))
    symbol exchange tradingType timeframe
    (SupplyDemandSignal.timestamp signal) (SupplyDemandSignal.type signal)
    (SupplyDemandSignal.price signal) supply_demand (ZoneData signal) true
    (SupplyDemandSignal.confidence signal).

(** [TechnicalAnalysisService.analyzeData].  [now_macd] is the clock as the
    call of [calculateMACD] in the body sees it, [now_bounce] as the call
    inside [detectEMABounceSignal] does. *)
Definition analyzeData (now_macd now_bounce : nat → Z)
    (exchange : Exchange) (tradingType : TradingType) (symbol : string)
    (timeframe : Timeframe) (klineData : list KlineData.t)
    : option Analysis.t :=
  let closePrices := KlineData.close <$> klineData in
  let ema9 := calculateEMA closePrices 9 in
  let ema20 := calculateEMA closePrices 20 in
  let ema200 := calculateEMA closePrices 200 in
  let minLength :=
    (length ema9 `min` (length ema20 `min` length ema200))%nat in
  let startIndex := (length klineData - minLength)%nat in
  emaData ← mapM (ema_point_at klineData ema9 ema20 ema200 minLength startIndex)
              (seq 0 minLength);
  let vwapData := calculateVWAP klineData in
  macdData ← calculateMACD now_macd closePrices 12 26 9;
  supplyDemandZones ← detectSupplyDemandZones klineData;
  emaBounceSignals ←
    detectEMABounceSignal now_bounce klineData vwapData 9 20 200 12 26 9
      default_tolPct default_maxWait;
  let supplyDemandSignals :=
    detectSupplyDemandSignals klineData supplyDemandZones in
  let allSignals :=
    (wrap_bounce exchange tradingType symbol timeframe <$> emaBounceSignals)
    ++ (wrap_zone exchange tradingType symbol timeframe
          <$> supplyDemandSignals) in
  Some (Analysis.mk emaData vwapData macdData supplyDemandZones
          emaBounceSignals supplyDemandSignals allSignals).

(** ** Predicates of the statements *)

(** A candle whose open and close lie between its low and its high. *)
Definition well_formed (candle : KlineData.t) : Prop :=
  KlineData.low candle ≤ KlineData.open candle
  ∧ KlineData.open candle ≤ KlineData.high candle
  ∧ KlineData.low candle ≤ KlineData.close candle
  ∧ KlineData.close candle ≤ KlineData.high candle.

(** What the detection loop writes into every zone it pushes. *)
Definition detected_shape (zone : SupplyDemandZone.t) : Prop :=
  (SupplyDemandZone.zoneType zone = DBR ∨ SupplyDemandZone.zoneType zone = RBD)
  ∧ (SupplyDemandZone.strength zone = strong
     ∨ SupplyDemandZone.strength zone = medium)
  ∧ SupplyDemandZone.isValid zone = true.

Definition band_ordered (zone : SupplyDemandZone.t) : Prop :=
  SupplyDemandZone.low zone ≤ SupplyDemandZone.high zone.

(** Two zones of the same type whose bands [[low, high]] intersect. *)
Definition overlapping (a b : SupplyDemandZone.t) : Prop :=
  SupplyDemandZone.type a = SupplyDemandZone.type b
  ∧ SupplyDemandZone.low a ≤ SupplyDemandZone.high b
  ∧ SupplyDemandZone.low b ≤ SupplyDemandZone.high a.

(** No two zones at different positions of the list overlap. *)
Definition overlap_free (zones : list SupplyDemandZone.t) : Prop :=
  ∀ i j a b, i ≠ j → zones !! i = Some a → zones !! j = Some b →
    ¬ overlapping a b.

(** The buy signal the specification describes for a candle that trades
    into a demand zone: stop 1% under the zone, target twice the height of
    the zone above it, reward-risk from the close. *)
Definition demand_buy_signal (candle : KlineData.t)
    (zone : SupplyDemandZone.t) : SupplyDemandSignal.t :=
  let price := KlineData.close candle in
  let stop := SupplyDemandZone.low zone * Q2Qc (99 # 100) in
  let target :=
    SupplyDemandZone.high zone
    + 2 * (SupplyDemandZone.high zone - SupplyDemandZone.low zone) in
  SupplyDemandSignal.mk (KlineData.closeTime candle) buy price zone
    ("Price bounced from "
       +:+ zoneType_text (SupplyDemandZone.zoneType zone) +:+ " demand zone")
    stop target ((target - price) / (price - stop)) (getZoneConfidence zone).

(** A number clamped to [[0, 100]]. *)
Definition clamp_0_100 (x : Qc) : Qc :=
  if decide (x < 0) then 0
  else if decide (Qc_of_Z 100 < x) then Qc_of_Z 100
  else x.

(** The confidence of a bounce signal as the specification words it: the
    four base weights, the bounce-quality term, the sum clamped. *)
Definition bounce_confidence
    (bullishStack closeAboveVWAP oscillatorBullish volumePositive : bool)
    (toleranceBand low : Qc) : Qc :=
  let weight (b : bool) (w : Z) : Qc := if b then Qc_of_Z w else 0 in
  clamp_0_100
    (weight bullishStack 25%Z + weight closeAboveVWAP 20%Z
     + weight oscillatorBullish 20%Z + weight volumePositive 15%Z
     + Math_max 0
         (Qc_of_Z 20 - Qc_of_Z 100 * (toleranceBand - low) / toleranceBand)).

(** [signal] is what the loop of [detectEMABounceSignal] pushes when it
    fires on the candle [current]. *)
Definition fired_from (tolPct : Qc) (current : KlineData.t)
    (signal : EMABounceSignal.t) : Prop :=
  let tolPrice :=
    EMABounceSignal.ema9 signal * (1 + tolPct / Qc_of_Z 100) in
  EMABounceSignal.timestamp signal = KlineData.closeTime current
  ∧ EMABounceSignal.type signal = buy
  ∧ EMABounceSignal.price signal = KlineData.close current
  ∧ EMABounceSignal.bullishStack signal
      = bool_decide (EMABounceSignal.ema20 signal < EMABounceSignal.ema9 signal)
        && bool_decide
             (EMABounceSignal.ema200 signal < EMABounceSignal.ema20 signal)
  ∧ EMABounceSignal.priceAboveVWAP signal
      = bool_decide (EMABounceSignal.vwap signal < EMABounceSignal.price signal)
  ∧ EMABounceSignal.macdBullish signal
      = bool_decide
          (EMABounceSignal.macdSignal signal < EMABounceSignal.macdLine signal)
  ∧ EMABounceSignal.bullishStack signal = true
  ∧ EMABounceSignal.priceAboveVWAP signal = true
  ∧ EMABounceSignal.macdBullish signal = true
  ∧ EMABounceSignal.bounceConfirmed signal = true
  ∧ KlineData.low current ≤ tolPrice
  ∧ EMABounceSignal.confidence signal
      = calculateSignalConfidence
          (Factors.mk (EMABounceSignal.bullishStack signal)
             (EMABounceSignal.priceAboveVWAP signal)
             (EMABounceSignal.macdBullish signal)
             ((tolPrice - KlineData.low current) / tolPrice)
             (bool_decide (0 < KlineData.volume current))).

(** The oscillator values of a MACD point, without its timestamp. *)
Definition macd_values (point : MACDData.t) : Qc * Qc * Qc :=
  (MACDData.macd point, MACDData.signal point, MACDData.histogram point).

(** Everything in the result bundle but the timestamps of the MACD
    points. *)
Definition clock_free (result : Analysis.t) :=
  (Analysis.emaData result, Analysis.vwapData result,
   macd_values <$> Analysis.macdData result,
   Analysis.supplyDemandZones result, Analysis.emaBounceSignals result,
   Analysis.supplyDemandSignals result, Analysis.allSignals result).

(** The tag an id starts with. *)
Definition strategy_tag (strategy : Strategy) : string :=
  match strategy with ema_bounce => "ema" | supply_demand => "sd" end.

Definition id_well_formed (signal : TradingSignal.t) : Prop :=
  TradingSignal.id signal
    = strategy_tag (TradingSignal.strategy signal) +:+ "_"
        +:+ pretty (TradingSignal.timestamp signal).

(** Timestamps in chronological order: each is at most every later one. *)
Definition chronological (timestamps : list Z) : Prop :=
  StronglySorted Z.le timestamps.

(** ** Sample inputs *)

Definition ema_sample : list Qc :=
  [Qc_of_Z 1; Qc_of_Z 2; Qc_of_Z 6; Qc_of_Z 5].

(** A flat candle: open, high, low and close all at [price]. *)
Definition flat_candle (t : Z) (price volume : Qc) : KlineData.t :=
  KlineData.mk (t - 59999) price price price price volume t.

Definition candle (t : Z) (o h l c v : Z) : KlineData.t :=
  KlineData.mk (t - 59999) (Qc_of_Z o) (Qc_of_Z h) (Qc_of_Z l) (Qc_of_Z c)
    (Qc_of_Z v) t.

(** Two candles without volume, then one with. *)
Definition vwap_sample : list KlineData.t :=
  [candle 60000 10 12 9 11 0; candle 120000 11 13 10 12 0;
   candle 180000 12 14 11 13 5].

(** The same prices without any volume. *)
Definition zero_volume_sample : list KlineData.t :=
  [candle 60000 10 12 9 11 0; candle 120000 11 13 10 12 0;
   candle 180000 12 14 11 13 0].

(** The same prices with the volumes 2, 1 and 5. *)
Definition weighted_sample : list KlineData.t :=
  [candle 60000 10 12 9 11 2; candle 120000 11 13 10 12 1;
   candle 180000 12 14 11 13 5].

(** Ten well-formed candles, one minute apart.  Candles 2 and 4 are pin
    bars with a moderate lower wick, around 20 and around 40; candle 6 is a
    pin bar with a long lower wick that reaches from 36 down to 20. *)
Definition overlap_candles : list KlineData.t :=
  [candle 60000 20 20 20 20 1;
   candle 120000 20 20 20 20 1;
   candle 180000 20 22 15 22 1;
   candle 240000 22 40 22 40 1;
   candle 300000 40 42 35 42 1;
   candle 360000 42 42 36 36 1;
   candle 420000 36 36 20 36 1;
   candle 480000 36 36 36 36 1;
   candle 540000 36 36 36 36 1;
   candle 600000 36 36 36 36 1].

Definition zone_around_20 : SupplyDemandZone.t :=
  SupplyDemandZone.mk demand (Qc_of_Z 22) (Qc_of_Z 15) 180000 medium DBR true.
Definition zone_around_40 : SupplyDemandZone.t :=
  SupplyDemandZone.mk demand (Qc_of_Z 42) (Qc_of_Z 35) 300000 medium DBR true.
Definition zone_20_to_36 : SupplyDemandZone.t :=
  SupplyDemandZone.mk demand (Qc_of_Z 36) (Qc_of_Z 20) 420000 strong DBR true.

(** 202 well-formed candles, one minute apart.  The closes are 10000 up
    to candle 32, then 7543 and 11897, then 9972 up to candle 198; candle 40
    is a pin bar down to 9900; candle 199 falls to 9000 and candle 200
    closes at 12000 from a low of 10200. *)
Definition bounce_candle_at (i : nat) : KlineData.t :=
  let t := (60000 * (Z.of_nat i + 1))%Z in
  if decide (i < 33)%nat then candle t 10000 10000 10000 10000 1
  else if decide (i = 33)%nat then candle t 10000 10000 7543 7543 1
  else if decide (i = 34)%nat then candle t 7543 11897 7543 11897 1
  else if decide (i = 35)%nat then candle t 11897 11897 9972 9972 1
  else if decide (i = 40)%nat then candle t 9972 9972 9900 9972 1
  else if decide (i < 199)%nat then candle t 9972 9972 9972 9972 1
  else if decide (i = 199)%nat then candle t 9972 9972 9000 9000 1
  else if decide (i = 200)%nat then candle t 10200 12000 10200 12000 1
  else candle t 12000 12000 12000 12000 1.

Definition bounce_candles : list KlineData.t :=
  bounce_candle_at <$> seq 0 202.

(** 216 one-minute candles on which the scan fires late.  The history is
    the one of [bounce_candles] up to candle 199; candle 200 jumps to 12000
    without coming back to the fast average (the cross, no bounce), candles
    201 to 213 are flat at 10400, over the tolerance price, and candle 214
    dips to 10000 and closes at 10400.  By then the oscillator of the
    candles has fallen under its signal line, while the oscillator of the
    candles 34 to 49 is 0, over a signal line that is still negative. *)
Definition stale_candle_at (i : nat) : KlineData.t :=
  let t := (60000 * (Z.of_nat i + 1))%Z in
  if decide (i < 33)%nat then candle t 10000 10000 10000 10000 1
  else if decide (i = 33)%nat then candle t 10000 10000 7543 7543 1
  else if decide (i = 34)%nat then candle t 7543 11897 7543 11897 1
  else if decide (i = 35)%nat then candle t 11897 11897 9972 9972 1
  else if decide (i < 199)%nat then candle t 9972 9972 9972 9972 1
  else if decide (i = 199)%nat then candle t 9972 9972 9000 9000 1
  else if decide (i = 200)%nat then candle t 11000 12000 11000 12000 1
  else if decide (i = 214)%nat then candle t 10400 10400 10000 10400 1
  else candle t 10400 10400 10400 10400 1.

Definition stale_candles : list KlineData.t :=
  stale_candle_at <$> seq 0 216.

(** Thirty-four equal prices: enough for one MACD point. *)
Definition flat_prices : list Qc := replicate 34 (Qc_of_Z 100).

(** Nine candles: too few for the zone scan and for the slow EMA. *)
Definition short_candles : list KlineData.t :=
  (λ i, flat_candle (60000 * (Z.of_nat i + 1)) (Qc_of_Z 100) 1) <$> seq 0 9.

(** Thirty-four flat candles: enough for one MACD point. *)
Definition flat_candles : list KlineData.t :=
  (λ i, flat_candle (60000 * (Z.of_nat i + 1)) (Qc_of_Z 100) 1) <$> seq 0 34.

(** ** Predicates and samples of the further properties *)

(** The sell signal of a candle that trades into a supply zone, the mirror
    image of [demand_buy_signal]: stop 1% over the zone, target twice the
    height of the zone under it. *)
Definition supply_sell_signal (candle : KlineData.t)
    (zone : SupplyDemandZone.t) : SupplyDemandSignal.t :=
  let price := KlineData.close candle in
  let stop := SupplyDemandZone.high zone * Q2Qc (101 # 100) in
  let target :=
    SupplyDemandZone.low zone
    - 2 * (SupplyDemandZone.high zone - SupplyDemandZone.low zone) in
  SupplyDemandSignal.mk (KlineData.closeTime candle) sell price zone
    ("Price rejected from "
       +:+ zoneType_text (SupplyDemandZone.zoneType zone) +:+ " supply zone")
    stop target ((price - target) / (stop - price)) (getZoneConfidence zone).

(** A candle without body and wicks, at the price [c]. *)
Definition flat_at (c : Qc) (candle : KlineData.t) : Prop :=
  KlineData.open candle = c ∧ KlineData.high candle = c
  ∧ KlineData.low candle = c ∧ KlineData.close candle = c.

(** A supply zone between 36 and 40. *)
Definition supply_sample : SupplyDemandZone.t :=
  SupplyDemandZone.mk supply (Qc_of_Z 40) (Qc_of_Z 36) 240000 strong RBD true.

(** The tests of the loop body of [detectEMABounceSignal] at the bar [i],
    as functions of the bar: the averages aligned to the bar, the bullish
    stack and the cross of the fast average over the medium one. *)
Definition ema9_at (env : BounceEnv.t) (i : Z) : option Qc :=
  get_Z (BounceEnv.ema9 env)
    (Z.of_nat (length (BounceEnv.ema9 env))
     - Z.of_nat (BounceEnv.minLength env) + i).

Definition ema20_at (env : BounceEnv.t) (i : Z) : option Qc :=
  get_Z (BounceEnv.ema20 env)
    (Z.of_nat (length (BounceEnv.ema20 env))
     - Z.of_nat (BounceEnv.minLength env) + i).

Definition vwap_at (env : BounceEnv.t) (i : Z) : Qc :=
  match get_Z (BounceEnv.vwapData env)
          (Z.of_nat (length (BounceEnv.vwapData env))
           - Z.of_nat (BounceEnv.minLength env) + i) with
  | Some point => VWAPData.vwap point
  | None => 0
  end.

Definition bull_stack_at (env : BounceEnv.t) (i : nat) : bool :=
  num_lt (ema20_at env (Z.of_nat i)) (ema9_at env (Z.of_nat i))
  && num_lt (BounceEnv.ema200 env !! i) (ema20_at env (Z.of_nat i)).

Definition cross_up_at (env : BounceEnv.t) (i : nat) : bool :=
  num_le (ema9_at env (Z.of_nat i - 1)) (ema20_at env (Z.of_nat i - 1))
  && num_lt (ema20_at env (Z.of_nat i)) (ema9_at env (Z.of_nat i))
  && num_lt (BounceEnv.ema200 env !! i) (ema9_at env (Z.of_nat i)).

(** The state before the buy test of the bar [i], from the state [st] the
    bar starts in. *)
Definition state_before_test (env : BounceEnv.t) (i : nat)
    (st : BounceState.t) : BounceState.t :=
  let st :=
    if cross_up_at env i then BounceState.mk true 0
    else if BounceState.waitBounce st
         then BounceState.mk true (BounceState.barsWaited st + 1)
         else st in
  if negb (bull_stack_at env i)
     || (bool_decide (0 < BounceEnv.maxWait env)%Z
         && bool_decide (BounceEnv.maxWait env < BounceState.barsWaited st)%Z)
  then BounceState.mk false 0
  else st.

(** [signal] is the signal of the bar [i]: its evidence is read at [i] from
    the arrays of [env], and all the tests of the bar hold. *)
Definition fired_at (env : BounceEnv.t) (i : nat)
    (signal : EMABounceSignal.t) : Prop :=
  ∃ current macd,
    BounceEnv.klineData env !! (BounceEnv.startIndex env + i)%nat
      = Some current
    ∧ BounceEnv.macdData env !! i = Some macd
    ∧ ema9_at env (Z.of_nat i) = Some (EMABounceSignal.ema9 signal)
    ∧ ema20_at env (Z.of_nat i) = Some (EMABounceSignal.ema20 signal)
    ∧ BounceEnv.ema200 env !! i = Some (EMABounceSignal.ema200 signal)
    ∧ EMABounceSignal.vwap signal = vwap_at env (Z.of_nat i)
    ∧ EMABounceSignal.timestamp signal = KlineData.closeTime current
    ∧ EMABounceSignal.type signal = buy
    ∧ EMABounceSignal.price signal = KlineData.close current
    ∧ EMABounceSignal.macdLine signal = MACDData.macd macd
    ∧ EMABounceSignal.macdSignal signal = MACDData.signal macd
    ∧ EMABounceSignal.ema200 signal < EMABounceSignal.ema20 signal
    ∧ EMABounceSignal.ema20 signal < EMABounceSignal.ema9 signal
    ∧ EMABounceSignal.ema9 signal < EMABounceSignal.price signal
    ∧ EMABounceSignal.vwap signal < EMABounceSignal.price signal
    ∧ EMABounceSignal.macdSignal signal < EMABounceSignal.macdLine signal
    ∧ KlineData.low current
        ≤ EMABounceSignal.ema9 signal
          * (1 + BounceEnv.tolPct env / Qc_of_Z 100)
    ∧ EMABounceSignal.bullishStack signal = true
    ∧ EMABounceSignal.priceAboveVWAP signal = true
    ∧ EMABounceSignal.macdBullish signal = true
    ∧ EMABounceSignal.bounceConfirmed signal = true.

(** The scan is armed before the bar [i]: it waits since a cross at a bar
    [j] not before [lo], the stack was bullish from [j] on, and the counter
    holds the bars passed since [j]. *)
Definition armed_before (env : BounceEnv.t) (lo i : nat)
    (st : BounceState.t) : Prop :=
  BounceState.waitBounce st = true →
  ∃ j, (lo ≤ j < i)%nat
    ∧ BounceState.barsWaited st = Z.of_nat (i - 1 - j)
    ∧ cross_up_at env j = true
    ∧ ∀ k, (j ≤ k < i)%nat → bull_stack_at env k = true.

(** The arrays and parameters [detectEMABounceSignal] hands to its loop,
    given the MACD points it has computed. *)
Definition bounce_env (klineData : list KlineData.t)
    (vwapData : list VWAPData.t) (fastLen medLen slowLen : nat)
    (macdData : list MACDData.t) (tolPct : Qc) (maxWait : Z)
    : BounceEnv.t :=
  let closePrices := KlineData.close <$> klineData in
  let ema200 := calculateEMA closePrices slowLen in
  let minLength :=
    (length ema200 `min` (length macdData `min` length vwapData))%nat in
  BounceEnv.mk klineData vwapData (calculateEMA closePrices fastLen)
    (calculateEMA closePrices medLen) ema200 macdData minLength
    (length klineData - minLength) tolPct maxWait.

(** A bar of the scan that fires, with the cross that armed it: the cross
    is at a bar [j] from 1 on, the stack is bullish from [j] to the bar [i]
    of the signal, and [i] is at most [maxWait] bars after [j] when
    [maxWait] is positive. *)
Definition fired_after_cross (env : BounceEnv.t)
    (signal : EMABounceSignal.t) : Prop :=
  ∃ i j, (1 ≤ j ≤ i)%nat ∧ (i < BounceEnv.minLength env)%nat
    ∧ cross_up_at env j = true
    ∧ (∀ k, (j ≤ k ≤ i)%nat → bull_stack_at env k = true)
    ∧ ((0 < BounceEnv.maxWait env)%Z →
       (Z.of_nat (i - j) ≤ BounceEnv.maxWait env)%Z)
    ∧ fired_at env i signal.

(** The bars on which the scan fires, one for each signal, at least two
    bars apart. *)
Definition fired_on_bars (env : BounceEnv.t) (bars : list nat)
    (signals : list EMABounceSignal.t) : Prop :=
  Forall2 (fired_at env) bars signals
  ∧ StronglySorted (λ i j, (i + 2 ≤ j)%nat) bars.

(** The scan cannot fire on the bar [i]: it is not waiting, and the fast
    average does not cross at [i]. *)
Definition blocked_at (env : BounceEnv.t) (i : nat)
    (st : BounceState.t) : Prop :=
  BounceState.waitBounce st = false ∧ cross_up_at env i = false.

(** The average of period [p] at the candle [position]: the output
    [position + 1 - p] of [calculateEMA], whose first output belongs to the
    candle [p - 1]. *)
Definition ema_at_candle (prices : list Qc) (p position : nat)
    : option Qc :=
  calculateEMA prices p !! (position + 1 - p)%nat.

(** The oscillator at the candle [position]: the fast average less the slow
    average of that candle. *)
Definition macd_at_candle (prices : list Qc) (fastPeriod slowPeriod : nat)
    (position : nat) : option Qc :=
  fast ← ema_at_candle prices fastPeriod position;
  slow ← ema_at_candle prices slowPeriod position;
  Some (fast - slow).

(** ** The exchange API ([services/exchangeAPI.ts]) *)

(** [TIMEFRAME_MAPPING] and [normalizeTimeframe]: the interval string an
    exchange expects for a timeframe. *)
Definition TIMEFRAME_MAPPING (exchange : Exchange) (timeframe : Timeframe)
    : string :=
  match exchange, timeframe with
  | binance, tf_1m => "1m"
  | binance, tf_5m => "5m"
  | binance, tf_15m => "15m"
  | binance, tf_30m => "30m"
  | binance, tf_1h => "1h"
  | binance, tf_4h => "4h"
  | binance, tf_1d => "1d"
  | binance, tf_1w => "1w"
  | binance, tf_1M => "1M"
  | bybit, tf_1m => "1"
  | bybit, tf_5m => "5"
  | bybit, tf_15m => "15"
  | bybit, tf_30m => "30"
  | bybit, tf_1h => "60"
  | bybit, tf_4h => "240"
  | bybit, tf_1d => "D"
  | bybit, tf_1w => "W"
  | bybit, tf_1M => "M"
  end.

Definition normalizeTimeframe (exchange : Exchange) (timeframe : Timeframe)
    : string :=
  TIMEFRAME_MAPPING exchange timeframe.

(** [getTimeframeMs]: the length of a timeframe in milliseconds. *)
Definition getTimeframeMs (timeframe : Timeframe) : Z :=
  match timeframe with
  | tf_1m => 60 * 1000
  | tf_5m => 5 * 60 * 1000
  | tf_15m => 15 * 60 * 1000
  | tf_30m => 30 * 60 * 1000
  | tf_1h => 60 * 60 * 1000
  | tf_4h => 4 * 60 * 60 * 1000
  | tf_1d => 24 * 60 * 60 * 1000
  | tf_1w => 7 * 24 * 60 * 60 * 1000
  | tf_1M => 30 * 24 * 60 * 60 * 1000
  end%Z.

(** One row of a Bybit kline response, [item[0]] to [item[5]], the start
    time read by [parseInt] and the prices by [parseFloat]. *)
Module BybitKline.
Record t := mk {
  start : Z;
  open : Qc;
  high : Qc;
  low : Qc;
  close : Qc;
  volume : Qc
}.
End BybitKline.

(** [getBybitKlines], from the rows [response.list] on: the [map] that
    builds the candles. *)
Definition getBybitKlines (timeframe : Timeframe)
    (rows : list BybitKline.t) : list KlineData.t :=
  (λ item,
     KlineData.mk (BybitKline.start item) (BybitKline.open item)
       (BybitKline.high item) (BybitKline.low item) (BybitKline.close item)
       (BybitKline.volume item)
       (BybitKline.start item + getTimeframeMs timeframe - 1)%Z) <$> rows.

(** What the [try] block of [makeAPICall] comes to on one attempt: the
    parsed body, or the message of the error that is caught. *)
Inductive Attempt (T : Type) :=
  | Answered (data : T)
  | Failed (errorMsg : string).
Arguments Answered {T} data.
Arguments Failed {T} errorMsg.

Module ExchangeError.
Record t := mk {
  exchange : Exchange;
  endpoint : string;
  message : string;
  timestamp : Z
}.
End ExchangeError.

(** What [makeAPICall] throws: the [ExchangeError] of the last attempt, or
    the [Error] after the loop. *)
Inductive Thrown :=
  | exchange_error (error : ExchangeError.t)
  | plain_error (message : string).

Definition maxRetries : nat := 3.
Definition retryDelay : Z := 1000.

(** The loop of [makeAPICall] from the attempt [attempt] on, with
    [remaining] attempts to go: the waits between the attempts, in
    milliseconds, and what is returned or thrown.  [fetch] gives the
    outcome of each attempt and [now] is the clock when the error is
    built. *)
Fixpoint makeAPICall_loop {T : Type} (fetch : nat → Attempt T)
    (url : string) (exchange : Exchange) (now : Z)
    (remaining attempt : nat) : list Z * (Thrown + T) :=
  match remaining with
  | O => ([], inl (plain_error "Unexpected error in makeAPICall"))
  | S remaining =>
      match fetch attempt with
      | Answered data => ([], inr data)
      | Failed errorMsg =>
          if decide (attempt = maxRetries) then
            ([], inl (exchange_error
                        (ExchangeError.mk exchange url
                           ("Failed after " +:+ pretty maxRetries
                              +:+ " attempts: " +:+ errorMsg)
                           now)))
          else
            let '(waits, result) :=
              makeAPICall_loop fetch url exchange now remaining (S attempt) in
            ((retryDelay * Z.of_nat attempt)%Z :: waits, result)
      end
  end.

Definition makeAPICall {T : Type} (fetch : nat → Attempt T) (url : string)
    (exchange : Exchange) (now : Z) : list Z * (Thrown + T) :=
  makeAPICall_loop fetch url exchange now maxRetries 1.

Definition batchSize : nat := 10.

(** The loop of [ExchangeAPI.getAllTickers] over the symbols, from the
    index [i] on: the tickers collected and the pauses made between the
    batches, in milliseconds.  [fetch k symbol] is what the request for the
    symbol at position [k] comes to, [None] when it fails and is caught.
    The loop is run on [fuel], one unit for each test of its condition. *)
Fixpoint getAllTickers_loop {T : Type} (fuel : nat)
    (fetch : nat → string → option T) (symbols : list string) (i : nat)
    (tickers : list T) (pauses : list Z) : option (list T * list Z) :=
  match fuel with
  | O => None
  | S fuel =>
      if decide (i < length symbols)%nat then
        let batch := take batchSize (drop i symbols) in
        let batchResults := imap (λ k symbol, fetch (i + k)%nat symbol) batch in
        let tickers := tickers ++ omap id batchResults in
        let pauses :=
          if decide (i + batchSize < length symbols)%nat
          then pauses ++ [200%Z] else pauses in
        getAllTickers_loop fuel fetch symbols (i + batchSize) tickers pauses
      else Some (tickers, pauses)
  end.

Definition getAllTickers {T : Type} (fetch : nat → string → option T)
    (symbols : list string) : option (list T * list Z) :=
  getAllTickers_loop (S (length symbols)) fetch symbols 0 [] [].

(** An attempt that ends in the [catch] block. *)
Definition failed {T : Type} (attempt : Attempt T) : Prop :=
  ∃ errorMsg, attempt = Failed errorMsg.

(** * Properties *)

(** ** Tactics *)

(** Case analysis on the membership of a zone in [zone_candidates]. *)
Ltac zone_cases H :=
  unfold zone_candidates in H;
  repeat match type of H with
  | _ ∈ _ ++ _ => apply elem_of_app in H; destruct H as [H|H]
  | _ ∈ (if ?b then _ else _) => destruct b; [|by apply elem_of_nil in H]
  | _ ∈ [_] => apply list_elem_of_singleton in H; subst
  end.

(** Closed statements about rationals, settled by evaluation. *)
Ltac qc_compute :=
  match goal with
  | |- ?P => apply (bool_decide_unpack P); vm_compute; exact I
  end.

(** ** Numbers *)

Lemma foldl_Qcplus_shift (xs : list Qc) (a : Qc) :
  foldl Qcplus a xs = a + foldl Qcplus 0 xs.
Proof.
  revert a. induction xs as [|x xs IH]; intros a; simpl.
  - by rewrite Qcplus_0_r.
  - rewrite (IH (a + x)), (IH (0 + x)). ring.
Qed.

Lemma reduce_sum_foldr (xs : list Qc) : reduce_sum xs = foldr Qcplus 0 xs.
Proof.
  unfold reduce_sum. induction xs as [|x xs IH]; simpl; [done|].
  rewrite foldl_Qcplus_shift, IH. ring.
Qed.

Lemma Math_min_le_l (a b : Qc) : Math_min a b ≤ a.
Proof.
  unfold Math_min. case_decide as H; [done|].
  apply Qclt_le_weak. by apply Qclt_nge.
Qed.

Lemma Math_min_le_r (a b : Qc) : Math_min a b ≤ b.
Proof. unfold Math_min. by case_decide. Qed.

Lemma Math_max_ge_l (a b : Qc) : a ≤ Math_max a b.
Proof. unfold Math_max. by case_decide. Qed.

Lemma Math_max_ge_r (a b : Qc) : b ≤ Math_max a b.
Proof.
  unfold Math_max. case_decide as H; [done|].
  apply Qclt_le_weak. by apply Qclt_nge.
Qed.

(** ** Lists and loops *)

Lemma elem_of_slice_last {A : Type} (n : nat) (l : list A) (x : A) :
  x ∈ slice_last n l → x ∈ l.
Proof.
  unfold slice_last. intros [i Hi]%list_elem_of_lookup_1.
  rewrite lookup_drop in Hi. by eapply list_elem_of_lookup_2.
Qed.

Lemma length_slice_last {A : Type} (n : nat) (l : list A) :
  length (slice_last n l) = (length l `min` n)%nat.
Proof. unfold slice_last. rewrite length_drop. lia. Qed.



Lemma get_Z_is_Some {A : Type} (xs : list A) (i : Z) :
  (0 ≤ i < Z.of_nat (length xs))%Z → is_Some (get_Z xs i).
Proof.
  intros Hi. unfold get_Z. rewrite decide_True by lia.
  apply lookup_lt_is_Some_2. lia.
Qed.

Lemma StronglySorted_sublist {A : Type} (R : relation A) (k l : list A) :
  k `sublist_of` l → StronglySorted R l → StronglySorted R k.
Proof.
  induction 1 as [|x k l Hsub IH|x k l Hsub IH]; intros Hsorted.
  - constructor.
  - apply StronglySorted_inv in Hsorted as [Hl Hx].
    constructor; [auto|]. apply Forall_forall. intros y Hy.
    rewrite Forall_forall in Hx. apply Hx. by eapply elem_of_sublist.
  - apply StronglySorted_inv in Hsorted as [Hl _]. auto.
Qed.

Lemma mapM_fmap_comm {A B C : Type} (f : A → option B) (g : B → C)
    (l : list A) :
  fmap g <$> mapM f l = mapM (λ x, g <$> f x) l.
Proof.
  induction l as [|x l IH]; simpl; [done|].
  destruct (f x) as [y|]; simpl; [|done].
  rewrite <- IH. by destruct (mapM f l).
Qed.

Lemma mapM_seq_total {B : Type} (f : nat → option B) (a n : nat) :
  (∀ i, (a ≤ i < a + n)%nat → is_Some (f i)) → is_Some (mapM f (seq a n)).
Proof.
  intros Hf. apply mapM_is_Some_2, Forall_forall. intros i Hi.
  apply elem_of_seq in Hi. simpl. apply Hf. lia.
Qed.

(** ** [calculateEMA] *)

Lemma length_ema_loop (m last : Qc) (rest : list Qc) :
  length (ema_loop m last rest) = length rest.
Proof.
  revert last. induction rest as [|x rest IH]; intros last; simpl; [done|].
  by rewrite IH.
Qed.

Lemma length_calculateEMA (data : list Qc) (p : nat) :
  length (calculateEMA data p) =
    if decide (length data < p)%nat then 0%nat else (length data - p + 1)%nat.
Proof.
  unfold calculateEMA. case_decide; simpl; [done|].
  rewrite length_ema_loop, length_drop. lia.
Qed.

(** One turn of the loop: the element written for [rest !! k] is built from
    the element written just before it. *)
Lemma ema_loop_step (m : Qc) (rest : list Qc) :
  ∀ (last : Qc) (k : nat) (x : Qc),
    rest !! k = Some x →
    ∃ prev, (last :: ema_loop m last rest) !! k = Some prev ∧
            (last :: ema_loop m last rest) !! S k
              = Some (x * m + prev * (1 - m)).
Proof.
  induction rest as [|y rest IH]; intros last k x Hk; [done|].
  destruct k as [|k]; simpl in *.
  - injection Hk as ->. by exists last.
  - destruct (IH (y * m + last * (1 - m)) k x Hk) as (prev & H1 & H2).
    exists prev. by split.
Qed.

(** C4.  For a series and a period [p ≥ 1]: [calculateEMA] returns the empty
    sequence when the series is shorter than [p]; otherwise it returns
    [length data - p + 1] values, the first is the simple average of the
    first [p] elements, and every later one is
    [price * α + previous * (1 - α)] with [α = 2 / (p + 1)], where [price] is
    the element of the series the value is written for. *)
Theorem calculateEMA_spec (data : list Qc) (p : nat) :
  (0 < p)%nat →
  let α := 2 / (Qc_of_nat p + 1) in
  let ema := calculateEMA data p in
  ((length data < p)%nat → ema = []) ∧
  ((p ≤ length data)%nat →
     length ema = (length data - p + 1)%nat ∧
     ema !! 0%nat = Some (simple_average (take p data)) ∧
     ∀ (k : nat) (price : Qc),
       data !! (p + k)%nat = Some price →
       ∃ prev, ema !! k = Some prev ∧
               ema !! S k = Some (price * α + prev * (1 - α))).
Proof.
  intros Hp α ema. split.
  - intros Hlt. subst ema. unfold calculateEMA. by rewrite decide_True.
  - intros Hle. split; [|split].
    + subst ema. rewrite length_calculateEMA. rewrite decide_False; lia.
    + subst ema. unfold calculateEMA. rewrite decide_False by lia. simpl.
      unfold simple_average. rewrite reduce_sum_foldr, length_take.
      by rewrite Nat.min_l.
    + intros k price Hk. subst ema α. unfold calculateEMA.
      rewrite decide_False by lia.
      apply ema_loop_step. by rewrite lookup_drop.
Qed.

Lemma calculateEMA_spec_witness :
  (0 < 3)%nat ∧
  ((length ema_sample < 3)%nat → calculateEMA ema_sample 3 = []) ∧
  ((3 ≤ length ema_sample)%nat →
     length (calculateEMA ema_sample 3) = (length ema_sample - 3 + 1)%nat ∧
     calculateEMA ema_sample 3 !! 0%nat
       = Some (simple_average (take 3 ema_sample)) ∧
     ∀ (k : nat) (price : Qc),
       ema_sample !! (3 + k)%nat = Some price →
       ∃ prev, calculateEMA ema_sample 3 !! k = Some prev ∧
               calculateEMA ema_sample 3 !! S k
                 = Some (price * (2 / (Qc_of_nat 3 + 1))
                         + prev * (1 - 2 / (Qc_of_nat 3 + 1)))).
Proof.
  split; [lia|]. apply (calculateEMA_spec ema_sample 3). lia.
Defined.

(** ** [calculateVWAP] *)

Lemma length_vwap_loop (klineData : list KlineData.t) :
  ∀ tpv0 vol0, length (vwap_loop tpv0 vol0 klineData) = length klineData.
Proof.
  induction klineData as [|c rest IH]; intros tpv0 vol0; simpl; [done|].
  by rewrite IH.
Qed.

Lemma cumulative_volume_cons (c : KlineData.t) (rest : list KlineData.t) i :
  cumulative_volume (c :: rest) (S i)
    = KlineData.volume c + cumulative_volume rest i.
Proof. done. Qed.

Lemma cumulative_tpv_cons (c : KlineData.t) (rest : list KlineData.t) i :
  cumulative_tpv (c :: rest) (S i)
    = typicalPrice c * KlineData.volume c + cumulative_tpv rest i.
Proof. done. Qed.

(** What the loop writes at position [i]: the running sums it has reached
    there are the cumulative sums of the candles up to [i], on top of the
    values the loop was started with. *)
Lemma vwap_loop_lookup (klineData : list KlineData.t) :
  ∀ tpv0 vol0 i candle,
    klineData !! i = Some candle →
    vwap_loop tpv0 vol0 klineData !! i
      = Some (VWAPData.mk (KlineData.closeTime candle)
                (if decide (0 < vol0 + cumulative_volume klineData i)
                 then (tpv0 + cumulative_tpv klineData i)
                      / (vol0 + cumulative_volume klineData i)
                 else typicalPrice candle)
                (KlineData.volume candle)).
Proof.
  induction klineData as [|c rest IH]; intros tpv0 vol0 i candle Hi; [done|].
  destruct i as [|i]; simpl in Hi.
  - injection Hi as ->. simpl.
    unfold cumulative_volume, cumulative_tpv; simpl.
    by rewrite !Qcplus_0_r.
  - simpl. rewrite (IH _ _ i candle Hi).
    rewrite cumulative_volume_cons, cumulative_tpv_cons.
    by rewrite !Qcplus_assoc.
Qed.

Lemma vwap_loop_checked_total (klineData : list KlineData.t) :
  ∀ tpv0 vol0,
    vwap_loop_checked tpv0 vol0 klineData
      = Some (vwap_loop tpv0 vol0 klineData).
Proof.
  induction klineData as [|c rest IH]; intros tpv0 vol0; simpl; [done|].
  rewrite IH. case_decide as Hpos; simpl; [|done].
  unfold checked_div. rewrite decide_False; [done|].
  intros Hz. rewrite Hz in Hpos. by apply Qclt_not_eq in Hpos.
Qed.

Lemma cumulative_volume_all_zero (klineData : list KlineData.t) (i : nat) :
  Forall (λ c, KlineData.volume c = 0) klineData →
  cumulative_volume klineData i = 0.
Proof.
  intros Hall. unfold cumulative_volume.
  apply (Forall_take _ (S i)) in Hall.
  induction Hall as [|c l Hc _ IH]; [done|].
  rewrite fmap_cons. cbn [foldr]. by rewrite Hc, IH.
Qed.

(** C7.  [calculateVWAP] writes one point per candle; at a point where the
    cumulative volume is zero the value is [(high + low + close) / 3] of
    that candle, so with zero volume throughout every point is that
    quotient of its own candle; and the run never divides by zero: the
    rendering whose division faults on a zero divisor returns the same
    points. *)
Theorem calculateVWAP_zero_volume (klineData : list KlineData.t) :
  length (calculateVWAP klineData) = length klineData ∧
  calculateVWAP_checked klineData = Some (calculateVWAP klineData) ∧
  (∀ i candle,
     klineData !! i = Some candle →
     cumulative_volume klineData i = 0 →
     VWAPData.vwap <$> calculateVWAP klineData !! i
       = Some ((KlineData.high candle + KlineData.low candle
                + KlineData.close candle) / Qc_of_Z 3)) ∧
  (Forall (λ c, KlineData.volume c = 0) klineData →
   ∀ i candle,
     klineData !! i = Some candle →
     VWAPData.vwap <$> calculateVWAP klineData !! i
       = Some ((KlineData.high candle + KlineData.low candle
                + KlineData.close candle) / Qc_of_Z 3)).
Proof.
  assert (∀ i candle,
     klineData !! i = Some candle →
     cumulative_volume klineData i = 0 →
     VWAPData.vwap <$> calculateVWAP klineData !! i
       = Some ((KlineData.high candle + KlineData.low candle
                + KlineData.close candle) / Qc_of_Z 3)) as Hzero.
  { intros i candle Hi Hvol. unfold calculateVWAP.
    rewrite (vwap_loop_lookup _ _ _ _ _ Hi), Hvol, Qcplus_0_r.
    rewrite decide_False; [reflexivity|]. apply (irreflexivity (<)%Qc). }
  split; [apply length_vwap_loop|].
  split; [apply vwap_loop_checked_total|].
  split; [done|].
  intros Hall i candle Hi. apply Hzero; [done|].
  by apply cumulative_volume_all_zero.
Qed.

(** On [vwap_sample] the cumulative volume is still zero at the second
    candle (high 13, low 10, close 12), whose point is 35/3; on
    [zero_volume_sample] it is zero throughout, and the point of the third
    candle (high 14, low 11, close 13) is 38/3. *)
Lemma calculateVWAP_zero_volume_witness :
  VWAPData.vwap <$> calculateVWAP vwap_sample !! 1%nat
    = Some (Q2Qc (35 # 3))
  ∧ Forall (λ c, KlineData.volume c = 0) zero_volume_sample
  ∧ VWAPData.vwap <$> calculateVWAP zero_volume_sample !! 2%nat
      = Some (Q2Qc (38 # 3))
  ∧ length (calculateVWAP zero_volume_sample) = 3%nat
  ∧ calculateVWAP_checked zero_volume_sample
      = Some (calculateVWAP zero_volume_sample).
Proof.
  destruct (calculateVWAP_zero_volume vwap_sample) as (_ & _ & Hzero & _).
  destruct (calculateVWAP_zero_volume zero_volume_sample)
    as (Hlen & Hchecked & _ & Hall).
  assert (Forall (λ c, KlineData.volume c = 0) zero_volume_sample) as Hvol.
  { repeat (constructor; [qc_compute|]). constructor. }
  split.
  { assert (cumulative_volume vwap_sample 1 = 0) as Hcum by qc_compute.
    rewrite (Hzero 1%nat (candle 120000 11 13 10 12 0) eq_refl Hcum).
    f_equal; qc_compute. }
  split; [exact Hvol|]. split.
  { rewrite (Hall Hvol 2%nat (candle 180000 12 14 11 13 0) eq_refl).
    f_equal; qc_compute. }
  split; [exact Hlen|exact Hchecked].
Defined.

(** ** Zone detection *)

Lemma zone_candidates_shape (current prev : KlineData.t) zone :
  zone ∈ zone_candidates current prev → detected_shape zone.
Proof.
  intros H. zone_cases H; unfold detected_shape; simpl;
    repeat split; auto; case_decide; auto.
Qed.

Lemma zone_candidates_band (current prev : KlineData.t) zone :
  well_formed current →
  zone ∈ zone_candidates current prev → band_ordered zone.
Proof.
  intros (Hlo & Hoh & Hlc & Hch) H.
  zone_cases H; unfold band_ordered; simpl.
  - trans (KlineData.low current); [apply Math_min_le_l|].
    by trans (KlineData.open current).
  - trans (KlineData.high current); [|apply Math_max_ge_l].
    by trans (KlineData.open current).
  - trans (KlineData.open current); [done|apply Math_max_ge_l].
  - trans (KlineData.open current); [apply Math_min_le_l|done].
Qed.

(** The scan never reads outside the candle array, and every zone it
    pushes is a candidate of some candle of the sequence. *)
Lemma zone_loop_total (klineData : list KlineData.t) (indices : list nat) :
  Forall (λ i, (1 ≤ i)%nat ∧ (i + 1 < length klineData)%nat) indices →
  ∃ zones, zone_loop klineData indices = Some zones
    ∧ ∀ zone, zone ∈ zones →
        ∃ current prev, current ∈ klineData
          ∧ zone ∈ zone_candidates current prev.
Proof.
  induction 1 as [|i rest [Hi1 Hi2] _ (later & Hlater & IH)]; simpl.
  - exists []. split; [done|]. intros zone Hz. by apply elem_of_nil in Hz.
  - destruct (lookup_lt_is_Some_2 klineData i) as [current Hc]; [lia|].
    destruct (lookup_lt_is_Some_2 klineData (i - 1)) as [prev Hp]; [lia|].
    destruct (lookup_lt_is_Some_2 klineData (i + 1)) as [next Hn]; [lia|].
    unfold zones_at. rewrite Hc, Hp, Hn, Hlater. simpl.
    eexists. split; [done|]. intros zone Hz.
    apply elem_of_app in Hz as [Hz|Hz]; [|by apply IH].
    exists current, prev. split; [|done].
    by eapply list_elem_of_lookup_2.
Qed.

Lemma zone_scan_total (klineData : list KlineData.t) :
  ∃ zones, zone_scan klineData = Some zones
    ∧ ∀ zone, zone ∈ zones →
        ∃ current prev, current ∈ klineData
          ∧ zone ∈ zone_candidates current prev.
Proof.
  apply zone_loop_total. apply Forall_forall. intros i Hi.
  apply elem_of_seq in Hi. lia.
Qed.

(** ** Consolidation *)

(** The backward scan stays inside the accepted list, keeps its length, and
    leaves in it only zones that were there or the candidate. *)
Lemma scan_consolidated_total (zone : SupplyDemandZone.t)
    (consolidated : list SupplyDemandZone.t) (n : nat) :
  (n ≤ length consolidated)%nat →
  ∃ consolidated' shouldAdd,
    scan_consolidated zone consolidated n = Some (consolidated', shouldAdd)
    ∧ length consolidated' = length consolidated
    ∧ ∀ z, z ∈ consolidated' → z ∈ consolidated ∨ z = zone.
Proof.
  induction n as [|i IH]; intros Hn; simpl.
  - exists consolidated, true. auto.
  - destruct (lookup_lt_is_Some_2 consolidated i) as [existing He]; [lia|].
    rewrite He. simpl. destruct (zones_overlap zone existing).
    + eexists _, false. split; [done|]. case_decide; [|auto].
      split; [apply length_insert|].
      intros z [j Hj]%list_elem_of_lookup_1.
      apply list_lookup_insert_Some in Hj as [(_ & -> & _)|[_ Hj]]; [auto|].
      left. by eapply list_elem_of_lookup_2.
    + apply IH. lia.
Qed.

Lemma consolidate_loop_total (zones : list SupplyDemandZone.t) :
  ∀ consolidated,
  ∃ accepted, consolidate_loop consolidated zones = Some accepted
    ∧ ∀ z, z ∈ accepted → z ∈ consolidated ∨ z ∈ zones.
Proof.
  induction zones as [|zone rest IH]; intros consolidated; simpl.
  - exists consolidated. auto.
  - destruct (scan_consolidated_total zone consolidated (length consolidated))
      as (consolidated' & shouldAdd & -> & _ & Hin); [done|]. simpl.
    destruct (IH (if shouldAdd then consolidated' ++ [zone]
                  else consolidated')) as (accepted & -> & Hacc).
    exists accepted. split; [done|]. intros z Hz.
    destruct (Hacc z Hz) as [Hz'|Hz']; [|right; by apply elem_of_cons; right].
    assert (z ∈ consolidated' ∨ z = zone) as [Hz''| ->].
    { destruct shouldAdd; [|auto].
      apply elem_of_app in Hz' as [?|?%list_elem_of_singleton]; auto. }
    + destruct (Hin z Hz'') as [?| ->]; [auto|].
      right. apply elem_of_cons. auto.
    + right. apply elem_of_cons. auto.
Qed.

Lemma consolidateZones_total (zones : list SupplyDemandZone.t) :
  ∃ kept, consolidateZones zones = Some kept
    ∧ (length kept ≤ 20)%nat
    ∧ ∀ z, z ∈ kept → z ∈ zones.
Proof.
  unfold consolidateZones.
  destruct (consolidate_loop_total zones []) as (accepted & -> & Hacc).
  simpl. eexists. split; [done|]. split.
  - rewrite length_slice_last. lia.
  - intros z Hz%elem_of_slice_last.
    destruct (Hacc z Hz) as [Hnil|]; [|done]. by apply elem_of_nil in Hnil.
Qed.

(** [detectSupplyDemandZones] returns on every candle sequence, with at
    most twenty zones, each of them a candidate of one of the candles. *)
Lemma detectSupplyDemandZones_total (klineData : list KlineData.t) :
  ∃ zones, detectSupplyDemandZones klineData = Some zones
    ∧ (length zones ≤ 20)%nat
    ∧ ∀ zone, zone ∈ zones →
        ∃ current prev, current ∈ klineData
          ∧ zone ∈ zone_candidates current prev.
Proof.
  unfold detectSupplyDemandZones. case_decide.
  - exists []. split; [done|]. split; [simpl; lia|].
    intros zone Hz. by apply elem_of_nil in Hz.
  - destruct (zone_scan_total klineData) as (candidates & -> & Hcand).
    simpl.
    destruct (consolidateZones_total candidates) as (kept & -> & Hlen & Hkept).
    exists kept. auto.
Qed.

(** C9.  On a sequence of well-formed candles every zone of
    [detectSupplyDemandZones] has [high ≥ low]: the candidates the scan
    pushes (engulfing and pin-bar alike) and the zones that are left after
    consolidation. *)
Theorem zones_band_ordered (klineData : list KlineData.t) :
  Forall well_formed klineData →
  (∃ candidates, zone_scan klineData = Some candidates
     ∧ Forall band_ordered candidates)
  ∧ (∃ zones, detectSupplyDemandZones klineData = Some zones
     ∧ Forall band_ordered zones).
Proof.
  intros Hwf. rewrite Forall_forall in Hwf. split.
  - destruct (zone_scan_total klineData) as (candidates & Hscan & Hcand).
    exists candidates. split; [done|]. apply Forall_forall. intros zone Hz.
    destruct (Hcand zone Hz) as (current & prev & Hc & Hzone).
    eapply zone_candidates_band; eauto.
  - destruct (detectSupplyDemandZones_total klineData)
      as (zones & Hdet & _ & Hcand).
    exists zones. split; [done|]. apply Forall_forall. intros zone Hz.
    destruct (Hcand zone Hz) as (current & prev & Hc & Hzone).
    eapply zone_candidates_band; eauto.
Qed.

Lemma zones_band_ordered_witness :
  Forall well_formed overlap_candles
  ∧ (∃ candidates, zone_scan overlap_candles = Some candidates
       ∧ Forall band_ordered candidates)
  ∧ (∃ zones, detectSupplyDemandZones overlap_candles = Some zones
       ∧ Forall band_ordered zones).
Proof.
  assert (Forall well_formed overlap_candles) as Hwf.
  { repeat (constructor; [repeat split; by vm_compute|]). constructor. }
  split; [exact Hwf|]. exact (zones_band_ordered overlap_candles Hwf).
Defined.

(** ** Signals from zones *)

Lemma getZoneConfidence_detected (zone : SupplyDemandZone.t) :
  detected_shape zone →
  getZoneConfidence zone = Qc_of_Z 85 ∨ getZoneConfidence zone = Qc_of_Z 100.
Proof.
  destruct zone as [side hi lo ts strength pattern valid].
  unfold detected_shape, getZoneConfidence; simpl.
  intros ([-> | ->] & [-> | ->] & _);
    ((left; qc_compute) || (right; qc_compute)).
Qed.

(** Every signal of [zone_signals] is built from its candle and its zone. *)
Lemma zone_signals_inv (candle : KlineData.t) (zone : SupplyDemandZone.t)
    (signal : SupplyDemandSignal.t) :
  signal ∈ zone_signals candle zone →
  SupplyDemandSignal.timestamp signal = KlineData.closeTime candle
  ∧ SupplyDemandSignal.price signal = KlineData.close candle
  ∧ SupplyDemandSignal.zone signal = zone
  ∧ SupplyDemandSignal.confidence signal = getZoneConfidence zone.
Proof.
  unfold zone_signals. intros H.
  repeat match type of H with
  | _ ∈ (if ?b then _ else _) => destruct b
  | _ ∈ [] => by apply elem_of_nil in H
  | _ ∈ [_] => apply list_elem_of_singleton in H; subst
  end; done.
Qed.

Lemma detectSupplyDemandSignals_inv (klineData : list KlineData.t)
    (zones : list SupplyDemandZone.t) (signal : SupplyDemandSignal.t) :
  signal ∈ detectSupplyDemandSignals klineData zones →
  ∃ candle zone, candle ∈ slice_last 50 klineData ∧ zone ∈ zones
    ∧ signal ∈ zone_signals candle zone.
Proof.
  unfold detectSupplyDemandSignals.
  destruct (_ || _); [by intros ?%elem_of_nil|].
  intros (candle & Hs & Hc)%list_elem_of_bind.
  apply list_elem_of_bind in Hs as (zone & Hs & Hz). eauto.
Qed.

(** C10.  Every zone of [detectSupplyDemandZones] carries a reversal tag
    ([DBR] or [RBD]), strength [strong] or [medium] and [isValid = true];
    so [getZoneConfidence] gives 85 or 100 on it, and every signal
    [detectSupplyDemandSignals] derives from these zones has confidence 85
    or 100: the branches for weak zones and for the other two tags are not
    taken. *)
Theorem detected_zones_confidence (klineData : list KlineData.t) :
  ∃ zones, detectSupplyDemandZones klineData = Some zones
    ∧ Forall (λ zone, detected_shape zone
                ∧ (getZoneConfidence zone = Qc_of_Z 85
                   ∨ getZoneConfidence zone = Qc_of_Z 100)) zones
    ∧ Forall (λ signal,
                SupplyDemandSignal.confidence signal = Qc_of_Z 85
                ∨ SupplyDemandSignal.confidence signal = Qc_of_Z 100)
        (detectSupplyDemandSignals klineData zones).
Proof.
  destruct (detectSupplyDemandZones_total klineData)
    as (zones & Hdet & _ & Hcand).
  assert (∀ zone, zone ∈ zones → detected_shape zone) as Hshape.
  { intros zone Hz. destruct (Hcand zone Hz) as (current & prev & _ & Hzone).
    by eapply zone_candidates_shape. }
  exists zones. split; [done|]. split; apply Forall_forall.
  - intros zone Hz. split; [auto|]. apply getZoneConfidence_detected. auto.
  - intros signal Hs.
    apply detectSupplyDemandSignals_inv in Hs as (candle & zone & _ & Hz & Hs).
    apply zone_signals_inv in Hs as (_ & _ & _ & ->).
    apply getZoneConfidence_detected. auto.
Qed.




(** C1 on the consolidation the code performs.  The three demand pin
    bars of [overlap_candles] give three candidates; the third one overlaps
    the second, which it replaces, and the first, which is never compared
    with it.  The two zones that are returned overlap, and the weaker one is
    among them. *)
Theorem consolidation_leaves_overlap :
  zone_scan overlap_candles
    = Some [zone_around_20; zone_around_40; zone_20_to_36]
  ∧ consolidateZones [zone_around_20; zone_around_40; zone_20_to_36]
      = Some [zone_around_20; zone_20_to_36]
  ∧ detectSupplyDemandZones overlap_candles
      = Some [zone_around_20; zone_20_to_36]
  ∧ overlapping zone_around_20 zone_20_to_36
  ∧ (getZoneStrengthValue (SupplyDemandZone.strength zone_around_20)
     < getZoneStrengthValue (SupplyDemandZone.strength zone_20_to_36))%nat
  ∧ ¬ overlap_free [zone_around_20; zone_20_to_36].
Proof.
  assert (overlapping zone_around_20 zone_20_to_36) as Hov.
  { repeat split; by vm_compute. }
  split; [by vm_compute|]. split; [by vm_compute|]. split; [by vm_compute|].
  split; [done|]. split; [simpl; lia|].
  intros Hfree. by apply (Hfree 0%nat 1%nat zone_around_20 zone_20_to_36).
Qed.

(** ** Bounce signals *)

Lemma num_lt_Some (a b : option Qc) :
  num_lt a b = true → ∃ x y, a = Some x ∧ b = Some y ∧ x < y.
Proof.
  destruct a as [x|], b as [y|]; try done. simpl.
  intros H%bool_decide_eq_true_1. eauto.
Qed.

Lemma num_le_Some (a b : option Qc) :
  num_le a b = true → ∃ x y, a = Some x ∧ b = Some y ∧ x ≤ y.
Proof.
  destruct a as [x|], b as [y|]; try done. simpl.
  intros H%bool_decide_eq_true_1. eauto.
Qed.

(** The scan over one environment: the arrays and parameters stay fixed
    while the state is threaded through the indices. *)
Section bounce_scan.
Context (env : BounceEnv.t).

Lemma bounce_step_inv (i : nat) (st st' : BounceState.t)
    (pushed : list EMABounceSignal.t) :
  bounce_step env i st = Some (st', pushed) →
  ∃ current,
    BounceEnv.klineData env !! (BounceEnv.startIndex env + i)%nat
      = Some current
    ∧ (pushed = []
       ∨ ∃ signal, pushed = [signal]
           ∧ fired_from (BounceEnv.tolPct env) current signal
           ∧ EMABounceSignal.ema9 signal ∈ BounceEnv.ema9 env).
Proof.
  unfold bounce_step. intros Hstep.
  destruct (BounceEnv.klineData env !! _) as [current|]; [|done].
  exists current. split; [done|]. simpl in Hstep.
  destruct (BounceEnv.macdData env !! i) as [macd|]; [|done].
  simpl in Hstep.
  destruct (_ && bool_decide (MACDData.signal _ < MACDData.macd _))
    eqn:Hfire in Hstep; [|injection Hstep as <- <-; by left].
  right.
  repeat (apply andb_prop in Hfire as [Hfire ?]).
  match type of Hfire with
  | BounceState.waitBounce (if ?c then _ else _) = true =>
      destruct c eqn:Hreset; [done|]
  end.
  apply orb_false_elim in Hreset as [Hstack%negb_false_iff _].
  pose proof Hstack as Hstack'.
  apply andb_prop in Hstack' as [H20 H200].
  apply num_lt_Some in H20 as (e20 & e9 & He20 & He9 & _).
  apply num_lt_Some in H200 as (e200 & ? & He200 & _).
  assert (e9 ∈ BounceEnv.ema9 env) as Hin.
  { unfold get_Z in He9. case_decide; [|done].
    by eapply list_elem_of_lookup_2. }
  rewrite He9, He20, He200 in *. simpl in *.
  injection Hstep as <- <-. eexists. split; [done|]. split; [|done].
  unfold fired_from. simpl.
  repeat match goal with
  | H : bool_decide _ = true |- _ => rewrite H
  | H : (_ && _) = true |- _ => rewrite H
  end.
  repeat split; try done.
  match goal with
  | H : (bool_decide (_ ≤ _) && _) = true |- _ =>
      apply andb_prop in H as [H _]; by apply bool_decide_eq_true_1 in H
  end.
Qed.


(** The signals come out in the order of the candles they fire on. *)
Lemma bounce_loop_sublist (n : nat) :
  ∀ a st signals,
    bounce_loop env (seq a n) st = Some signals →
    (EMABounceSignal.timestamp <$> signals)
      `sublist_of`
    (KlineData.closeTime
       <$> drop (BounceEnv.startIndex env + a) (BounceEnv.klineData env)).
Proof.
  induction n as [|n IH]; intros a st signals Hloop; simpl in Hloop.
  - injection Hloop as <-. apply sublist_nil_l.
  - destruct (bounce_step env a st) as [[st' pushed]|] eqn:Hstep; [|done].
    simpl in Hloop.
    destruct (bounce_loop env (seq (S a) n) st') as [later|] eqn:Hlater;
      [|done].
    injection Hloop as <-. apply IH in Hlater.
    apply bounce_step_inv in Hstep as (current & Hcur & Hpushed).
    rewrite (drop_S _ _ _ Hcur), fmap_cons.
    replace (S (BounceEnv.startIndex env + a))
      with (BounceEnv.startIndex env + S a)%nat by lia.
    destruct Hpushed as [-> | (signal & -> & Hfired)]; simpl.
    + by apply sublist_cons.
    + destruct Hfired as ((-> & _) & _). by apply sublist_skip.
Qed.

(** The loop body reaches its candle and its MACD point when the aligned
    window fits in both arrays. *)
Lemma bounce_step_total (i : nat) (st : BounceState.t) :
  (i < BounceEnv.minLength env)%nat →
  (BounceEnv.startIndex env + BounceEnv.minLength env
     ≤ length (BounceEnv.klineData env))%nat →
  (BounceEnv.minLength env ≤ length (BounceEnv.macdData env))%nat →
  is_Some (bounce_step env i st).
Proof.
  intros Hi Hk Hmacd. unfold bounce_step.
  destruct (lookup_lt_is_Some_2 (BounceEnv.klineData env)
              (BounceEnv.startIndex env + i)) as [current ->]; [lia|].
  destruct (lookup_lt_is_Some_2 (BounceEnv.macdData env) i) as [macd ->];
    [lia|].
  simpl.
  destruct (_ && bool_decide (MACDData.signal _ < MACDData.macd _))
    eqn:Hfire; [|done].
  repeat (apply andb_prop in Hfire as [Hfire ?]).
  match type of Hfire with
  | BounceState.waitBounce (if ?c then _ else _) = true =>
      destruct c eqn:Hreset; [done|]
  end.
  apply orb_false_elim in Hreset as [Hstack%negb_false_iff _].
  apply andb_prop in Hstack as [H20 H200].
  apply num_lt_Some in H20 as (e20 & e9 & -> & -> & _).
  apply num_lt_Some in H200 as (e200 & ? & -> & _).
  done.
Qed.

Lemma bounce_loop_total (indices : list nat) :
  Forall (λ i, (i < BounceEnv.minLength env)%nat) indices →
  (BounceEnv.startIndex env + BounceEnv.minLength env
     ≤ length (BounceEnv.klineData env))%nat →
  (BounceEnv.minLength env ≤ length (BounceEnv.macdData env))%nat →
  ∀ st, is_Some (bounce_loop env indices st).
Proof.
  intros Hidx Hk Hmacd.
  induction Hidx as [|i rest Hi _ IH]; intros st; simpl; [done|].
  destruct (bounce_step_total i st) as [[st' pushed] ->]; [done..|].
  simpl. by destruct (IH st') as [later ->].
Qed.

End bounce_scan.

(** ** [calculateMACD] *)

(** The loop that writes the oscillator line reads inside both averages
    when the fast period is not the longer one. *)
Lemma macd_line_total (prices : list Qc) (fastPeriod slowPeriod : nat) :
  (fastPeriod ≤ slowPeriod)%nat →
  length (calculateEMA prices slowPeriod) ≠ 0%nat →
  is_Some
    (mapM (macd_line_at (calculateEMA prices fastPeriod)
             (calculateEMA prices slowPeriod)
             (Z.of_nat slowPeriod - Z.of_nat fastPeriod))
       (seq 0 (length (calculateEMA prices slowPeriod)))).
Proof.
  intros Hperiods Hslow. apply mapM_seq_total. intros i Hi.
  unfold macd_line_at.
  rewrite length_calculateEMA in Hi, Hslow.
  destruct (decide (length prices < slowPeriod)%nat); [done|].
  destruct (get_Z_is_Some (calculateEMA prices fastPeriod)
              (Z.of_nat i + (Z.of_nat slowPeriod - Z.of_nat fastPeriod)))
    as [fast ->].
  { rewrite length_calculateEMA. rewrite decide_False by lia. lia. }
  destruct (lookup_lt_is_Some_2 (calculateEMA prices slowPeriod) i)
    as [slow ->]; [|done].
  rewrite length_calculateEMA. rewrite decide_False by lia. lia.
Qed.

Lemma macd_points_total (now : nat → Z) (macdLine : list Qc)
    (signalPeriod : nat) :
  (1 ≤ signalPeriod)%nat →
  is_Some
    (mapM (macd_point_at now macdLine (calculateEMA macdLine signalPeriod)
             (Z.of_nat (length macdLine)
              - Z.of_nat (length (calculateEMA macdLine signalPeriod))))
       (seq 0 (length (calculateEMA macdLine signalPeriod)))).
Proof.
  intros Hsig. apply mapM_seq_total. intros i Hi. unfold macd_point_at.
  destruct (lookup_lt_is_Some_2 (calculateEMA macdLine signalPeriod) i)
    as [signal Hsignal]; [lia|].
  rewrite length_calculateEMA in Hi |- *.
  destruct (decide (length macdLine < signalPeriod)%nat); [simpl in Hi; lia|].
  destruct (get_Z_is_Some macdLine
    (Z.of_nat i + (Z.of_nat (length macdLine)
                   - Z.of_nat (length macdLine - signalPeriod + 1))))
    as [macd ->]; [lia|].
  by rewrite Hsignal.
Qed.

Lemma calculateMACD_total (now : nat → Z) (prices : list Qc)
    (fastPeriod slowPeriod signalPeriod : nat) :
  (fastPeriod ≤ slowPeriod)%nat → (1 ≤ signalPeriod)%nat →
  is_Some (calculateMACD now prices fastPeriod slowPeriod signalPeriod).
Proof.
  intros Hperiods Hsig. unfold calculateMACD.
  destruct (bool_decide (length (calculateEMA prices fastPeriod) = 0%nat))
    eqn:Hfast; [done|].
  destruct (bool_decide (length (calculateEMA prices slowPeriod) = 0%nat))
    eqn:Hslow; [done|].
  apply bool_decide_eq_false_1 in Hslow. simpl.
  destruct (macd_line_total prices fastPeriod slowPeriod Hperiods Hslow)
    as [macdLine ->].
  simpl. by apply macd_points_total.
Qed.

(** The oscillator values do not depend on the clock. *)
Lemma calculateMACD_values (now now' : nat → Z) (prices : list Qc)
    (fastPeriod slowPeriod signalPeriod : nat) :
  fmap (M := list) macd_values
    <$> calculateMACD now prices fastPeriod slowPeriod signalPeriod
  = fmap (M := list) macd_values
      <$> calculateMACD now' prices fastPeriod slowPeriod signalPeriod.
Proof.
  unfold calculateMACD. destruct (_ || _); [done|].
  destruct (mapM _ _) as [macdLine|]; [|done]. simpl.
  rewrite !mapM_fmap_comm. apply mapM_ext. intros i.
  unfold macd_point_at.
  destruct (get_Z macdLine _); [|done]. simpl.
  by destruct (calculateEMA macdLine signalPeriod !! i).
Qed.

(** The timestamp of point [i] is the clock reading of iteration [i], moved
    back by one minute for every point that follows. *)
Lemma calculateMACD_timestamps (now : nat → Z) (prices : list Qc)
    (fastPeriod slowPeriod signalPeriod : nat) (points : list MACDData.t) :
  calculateMACD now prices fastPeriod slowPeriod signalPeriod = Some points →
  ∀ i point, points !! i = Some point →
    MACDData.timestamp point
      = (now i - (Z.of_nat (length points) - Z.of_nat i - 1) * 60000)%Z.
Proof.
  unfold calculateMACD. destruct (_ || _).
  { intros [= <-] i point Hi. done. }
  destruct (mapM _ _) as [macdLine|]; [|done]. simpl.
  intros Hpoints i point Hi.
  pose proof (length_mapM _ _ _ Hpoints) as Hlen. rewrite length_seq in Hlen.
  apply mapM_Some_1 in Hpoints.
  destruct (Forall2_lookup_r _ _ _ _ _ Hpoints Hi) as (j & Hj & Hpoint).
  apply lookup_seq in Hj as [-> _]. simpl in Hpoint.
  unfold macd_point_at in Hpoint.
  destruct (get_Z macdLine _); [|done]. simpl in Hpoint.
  destruct (calculateEMA macdLine signalPeriod !! i); [|done].
  injection Hpoint as <-. simpl. by rewrite Hlen.
Qed.

(** ** [detectEMABounceSignal] *)

(** The loop body looks at the oscillator and its signal line, not at the
    timestamps of the MACD points. *)
Lemma bounce_step_macd_values (klineData : list KlineData.t)
    (vwapData : list VWAPData.t) (ema9 ema20 ema200 : list Qc)
    (macdData macdData' : list MACDData.t) (minLength startIndex : nat)
    (tolPct : Qc) (maxWait : Z) (i : nat) (st : BounceState.t) :
  macd_values <$> macdData = macd_values <$> macdData' →
  bounce_step
    (BounceEnv.mk klineData vwapData ema9 ema20 ema200 macdData minLength
       startIndex tolPct maxWait) i st
  = bounce_step
      (BounceEnv.mk klineData vwapData ema9 ema20 ema200 macdData' minLength
         startIndex tolPct maxWait) i st.
Proof.
  intros Hvalues.
  assert (macd_values <$> macdData !! i = macd_values <$> macdData' !! i)
    as Hi by by rewrite <- !list_lookup_fmap, Hvalues.
  unfold bounce_step. simpl.
  destruct (macdData !! i) as [[ts m s h]|], (macdData' !! i) as [[ts' m' s' h']|];
    simpl in Hi; try done.
  injection Hi as -> -> ->. done.
Qed.

Lemma bounce_loop_macd_values (klineData : list KlineData.t)
    (vwapData : list VWAPData.t) (ema9 ema20 ema200 : list Qc)
    (macdData macdData' : list MACDData.t) (minLength startIndex : nat)
    (tolPct : Qc) (maxWait : Z) (indices : list nat) :
  macd_values <$> macdData = macd_values <$> macdData' →
  ∀ st,
    bounce_loop
      (BounceEnv.mk klineData vwapData ema9 ema20 ema200 macdData minLength
         startIndex tolPct maxWait) indices st
    = bounce_loop
        (BounceEnv.mk klineData vwapData ema9 ema20 ema200 macdData'
           minLength startIndex tolPct maxWait) indices st.
Proof.
  intros Hvalues. induction indices as [|i rest IH]; intros st; simpl; [done|].
  rewrite (bounce_step_macd_values _ _ _ _ _ _ _ _ _ _ _ _ _ Hvalues).
  destruct (bounce_step _ i st) as [[st' pushed]|]; simpl; [|done].
  by rewrite IH.
Qed.

Lemma detectEMABounceSignal_clock (now now' : nat → Z)
    (klineData : list KlineData.t) (vwapData : list VWAPData.t)
    (fastLen medLen slowLen macdFast macdSlow macdSig : nat)
    (tolPct : Qc) (maxWait : Z) :
  detectEMABounceSignal now klineData vwapData fastLen medLen slowLen
    macdFast macdSlow macdSig tolPct maxWait
  = detectEMABounceSignal now' klineData vwapData fastLen medLen slowLen
      macdFast macdSlow macdSig tolPct maxWait.
Proof.
  unfold detectEMABounceSignal. case_decide; [done|].
  pose proof (calculateMACD_values now now' (KlineData.close <$> klineData)
                macdFast macdSlow macdSig) as Hvalues.
  destruct (calculateMACD now _ _ _ _) as [macdData|],
    (calculateMACD now' _ _ _ _) as [macdData'|]; simpl in Hvalues; try done.
  injection Hvalues as Hvalues. simpl.
  assert (length macdData = length macdData') as <-.
  { by rewrite <- (length_fmap macd_values macdData), Hvalues, length_fmap. }
  by apply bounce_loop_macd_values.
Qed.

(** The scan returns when the slow period is at least 1 and the MACD
    periods are in their usual order. *)
Lemma detectEMABounceSignal_total (now : nat → Z)
    (klineData : list KlineData.t) (vwapData : list VWAPData.t)
    (fastLen medLen slowLen macdFast macdSlow macdSig : nat)
    (tolPct : Qc) (maxWait : Z) :
  (1 ≤ slowLen)%nat → (macdFast ≤ macdSlow)%nat → (1 ≤ macdSig)%nat →
  is_Some
    (detectEMABounceSignal now klineData vwapData fastLen medLen slowLen
       macdFast macdSlow macdSig tolPct maxWait).
Proof.
  intros Hslow Hmacd Hsig. unfold detectEMABounceSignal.
  case_decide as Hlen; [done|].
  destruct (calculateMACD_total now (KlineData.close <$> klineData)
              macdFast macdSlow macdSig Hmacd Hsig) as [macdData ->].
  simpl.
  apply bounce_loop_total; simpl;
    rewrite ?length_calculateEMA, ?length_fmap;
    repeat case_decide; try lia.
  apply Forall_forall. intros i Hi. apply elem_of_seq in Hi. lia.
Qed.

(** C8.  Too little history gives an empty result, not a fault: with fewer
    than 10 candles [detectSupplyDemandZones] returns the empty list, and
    with fewer candles than the slow EMA period (200 unless configured
    otherwise) [detectEMABounceSignal] returns the empty list. *)
Theorem insufficient_history_is_empty (now : nat → Z)
    (klineData : list KlineData.t) (vwapData : list VWAPData.t)
    (fastLen medLen slowLen macdFast macdSlow macdSig : nat)
    (tolPct : Qc) (maxWait : Z) :
  ((length klineData < 10)%nat →
     detectSupplyDemandZones klineData = Some [])
  ∧ ((length klineData < slowLen)%nat →
       detectEMABounceSignal now klineData vwapData fastLen medLen slowLen
         macdFast macdSlow macdSig tolPct maxWait = Some []).
Proof.
  split; intros Hlen.
  - unfold detectSupplyDemandZones. by rewrite decide_True.
  - unfold detectEMABounceSignal. by rewrite decide_True.
Qed.

Lemma insufficient_history_is_empty_witness :
  detectSupplyDemandZones short_candles = Some []
  ∧ detectEMABounceSignal (λ _, 0%Z) short_candles
      (calculateVWAP short_candles) 9 20 200 12 26 9
      default_tolPct default_maxWait = Some [].
Proof.
  destruct (insufficient_history_is_empty (λ _, 0%Z) short_candles
              (calculateVWAP short_candles) 9 20 200 12 26 9
              default_tolPct default_maxWait) as [Hzones Hbounce].
  split; [apply Hzones|apply Hbounce]; simpl; lia.
Defined.

(** ** Confidence *)








(** C5.  The confidence counts an oscillator that is not the one of the
    candle that fires.  On [stale_candles], with the default periods, the
    scan returns one signal, for candle 214.  The MACD point the loop reads
    there is [macdData[15]], the point of candle 48, whose oscillator 0 is
    over its signal line; the point of candle 214 itself is
    [macdData[181]], and its oscillator is under its signal line.  The
    signal is flagged [macdBullish] and its confidence, between 96 and 97,
    is the one of the specification with the oscillator weight counted;
    with the oscillator of candle 214 the specification gives a value
    between 76 and 77. *)
Lemma confidence_counts_stale_oscillator :
  ∃ signal candle macdData stored current,
    detectEMABounceSignal (λ _, 0%Z) stale_candles
      (calculateVWAP stale_candles) 9 20 200 12 26 9
      default_tolPct default_maxWait = Some [signal]
    ∧ stale_candles !! 214%nat = Some candle
    ∧ EMABounceSignal.timestamp signal = KlineData.closeTime candle
    ∧ calculateMACD (λ _, 0%Z) (KlineData.close <$> stale_candles) 12 26 9
        = Some macdData
    ∧ macdData !! 15%nat = Some stored
    ∧ macdData !! 181%nat = Some current
    ∧ macd_at_candle (KlineData.close <$> stale_candles) 12 26 48
        = Some (MACDData.macd stored)
    ∧ macd_at_candle (KlineData.close <$> stale_candles) 12 26 214
        = Some (MACDData.macd current)
    ∧ EMABounceSignal.macdLine signal = MACDData.macd stored
    ∧ EMABounceSignal.macdSignal signal = MACDData.signal stored
    ∧ MACDData.signal stored < MACDData.macd stored
    ∧ MACDData.macd current < MACDData.signal current
    ∧ EMABounceSignal.macdBullish signal = true
    ∧ (let band :=
         EMABounceSignal.ema9 signal * (1 + default_tolPct / Qc_of_Z 100) in
       0 < band
       ∧ EMABounceSignal.confidence signal
           = bounce_confidence true true true true band (KlineData.low candle)
       ∧ Qc_of_Z 76
           < bounce_confidence true true
               (bool_decide (MACDData.signal current < MACDData.macd current))
               true band (KlineData.low candle)
       ∧ bounce_confidence true true
           (bool_decide (MACDData.signal current < MACDData.macd current))
           true band (KlineData.low candle)
           < Qc_of_Z 77)
    ∧ Qc_of_Z 96 < EMABounceSignal.confidence signal
    ∧ EMABounceSignal.confidence signal < Qc_of_Z 97.
Proof.
  pose (closePrices := KlineData.close <$> stale_candles).
  assert (match detectEMABounceSignal (λ _, 0%Z) stale_candles
                  (calculateVWAP stale_candles) 9 20 200 12 26 9
                  default_tolPct default_maxWait,
                calculateMACD (λ _, 0%Z) closePrices 12 26 9,
                stale_candles !! 214%nat with
          | Some [signal], Some macdData, Some candle =>
              match macdData !! 15%nat, macdData !! 181%nat with
              | Some stored, Some current =>
                  let band :=
                    EMABounceSignal.ema9 signal
                    * (1 + default_tolPct / Qc_of_Z 100) in
                  bool_decide
                    (EMABounceSignal.timestamp signal
                       = KlineData.closeTime candle
                     ∧ macd_at_candle closePrices 12 26 48
                         = Some (MACDData.macd stored)
                     ∧ macd_at_candle closePrices 12 26 214
                         = Some (MACDData.macd current)
                     ∧ EMABounceSignal.macdLine signal = MACDData.macd stored
                     ∧ EMABounceSignal.macdSignal signal
                         = MACDData.signal stored
                     ∧ MACDData.signal stored < MACDData.macd stored
                     ∧ MACDData.macd current < MACDData.signal current
                     ∧ EMABounceSignal.macdBullish signal = true
                     ∧ (0 < band
                        ∧ EMABounceSignal.confidence signal
                            = bounce_confidence true true true true band
                                (KlineData.low candle)
                        ∧ Qc_of_Z 76
                            < bounce_confidence true true
                                (bool_decide (MACDData.signal current
                                              < MACDData.macd current))
                                true band (KlineData.low candle)
                        ∧ bounce_confidence true true
                            (bool_decide (MACDData.signal current
                                          < MACDData.macd current))
                            true band (KlineData.low candle)
                            < Qc_of_Z 77)
                     ∧ Qc_of_Z 96 < EMABounceSignal.confidence signal
                     ∧ EMABounceSignal.confidence signal < Qc_of_Z 97)
              | _, _ => false
              end
          | _, _, _ => false
          end = true) as Hrun by (vm_compute; reflexivity).
  fold closePrices.
  destruct (detectEMABounceSignal _ _ _ _ _ _ _ _ _ _ _)
    as [[|signal [|? ?]]|].
  1,3,4: discriminate Hrun.
  destruct (calculateMACD _ _ _ _ _) as [macdData|].
  2: discriminate Hrun.
  destruct (stale_candles !! 214%nat) as [candle|].
  2: discriminate Hrun.
  destruct (macdData !! 15%nat) as [stored|] eqn:Hstored.
  2: discriminate Hrun.
  destruct (macdData !! 181%nat) as [current|] eqn:Hcurrent.
  2: discriminate Hrun.
  apply bool_decide_eq_true_1 in Hrun.
  exists signal, candle, macdData, stored, current.
  split; [done|]. split; [done|]. destruct Hrun as (Hts & Hrest).
  split; [done|]. split; [done|]. split; [done|]. split; [done|].
  exact Hrest.
Qed.

(** ** The tolerance band is positive on positive prices

    The bounce-quality term divides by the tolerance band.  On candles with
    positive closes the band is positive, so that division has a nonzero
    divisor in every run that fires. *)









(** On [bounce_candles] the scan fires once, on candle 200, with a
    confidence between 99 and 100. *)
Lemma bounce_sample_fires :
  ∃ signal,
    detectEMABounceSignal (λ _, 0%Z) bounce_candles
      (calculateVWAP bounce_candles) 9 20 200 12 26 9
      default_tolPct default_maxWait = Some [signal]
    ∧ EMABounceSignal.timestamp signal = 12060000%Z
    ∧ Qc_of_Z 99 < EMABounceSignal.confidence signal
    ∧ EMABounceSignal.confidence signal < Qc_of_Z 100.
Proof.
  assert (match detectEMABounceSignal (λ _, 0%Z) bounce_candles
                  (calculateVWAP bounce_candles) 9 20 200 12 26 9
                  default_tolPct default_maxWait with
          | Some [signal] =>
              bool_decide
                (EMABounceSignal.timestamp signal = 12060000%Z
                 ∧ Qc_of_Z 99 < EMABounceSignal.confidence signal
                 ∧ EMABounceSignal.confidence signal < Qc_of_Z 100)
          | _ => false
          end = true) as Hrun by (vm_compute; reflexivity).
  destruct (detectEMABounceSignal _ _ _ _ _ _ _ _ _ _ _)
    as [[|signal [|? ?]]|]; try done.
  exists signal. split; [done|]. by apply bool_decide_eq_true_1 in Hrun.
Qed.



(** ** [analyzeData] *)

(** What a returned bundle is made of. *)
Lemma analyzeData_Some (now_macd now_bounce : nat → Z) (exchange : Exchange)
    (tradingType : TradingType) (symbol : string) (timeframe : Timeframe)
    (klineData : list KlineData.t) (result : Analysis.t) :
  analyzeData now_macd now_bounce exchange tradingType symbol timeframe
    klineData = Some result →
  calculateMACD now_macd (KlineData.close <$> klineData) 12 26 9
    = Some (Analysis.macdData result)
  ∧ detectSupplyDemandZones klineData
      = Some (Analysis.supplyDemandZones result)
  ∧ detectEMABounceSignal now_bounce klineData (calculateVWAP klineData)
      9 20 200 12 26 9 default_tolPct default_maxWait
      = Some (Analysis.emaBounceSignals result)
  ∧ Analysis.vwapData result = calculateVWAP klineData
  ∧ Analysis.supplyDemandSignals result
      = detectSupplyDemandSignals klineData (Analysis.supplyDemandZones result)
  ∧ Analysis.allSignals result
      = (wrap_bounce exchange tradingType symbol timeframe
           <$> Analysis.emaBounceSignals result)
        ++ (wrap_zone exchange tradingType symbol timeframe
              <$> Analysis.supplyDemandSignals result).
Proof.
  unfold analyzeData. intros Hrun.
  destruct (mapM _ _) as [emaData|]; [|done]. simpl in Hrun.
  destruct (calculateMACD _ _ _ _ _) as [macdData|]; [|done].
  simpl in Hrun.
  destruct (detectSupplyDemandZones klineData) as [zones|]; [|done].
  simpl in Hrun.
  destruct (detectEMABounceSignal _ _ _ _ _ _ _ _ _ _ _) as [bounce|];
    [|done].
  injection Hrun as <-. done.
Qed.

(** [analyzeData] returns on every candle sequence. *)
Lemma analyzeData_total (now_macd now_bounce : nat → Z) (exchange : Exchange)
    (tradingType : TradingType) (symbol : string) (timeframe : Timeframe)
    (klineData : list KlineData.t) :
  is_Some (analyzeData now_macd now_bounce exchange tradingType symbol
             timeframe klineData).
Proof.
  unfold analyzeData.
  set (closePrices := KlineData.close <$> klineData).
  set (ema9 := calculateEMA closePrices 9).
  set (ema20 := calculateEMA closePrices 20).
  set (ema200 := calculateEMA closePrices 200).
  set (minLength := (length ema9 `min` (length ema20 `min` length ema200))%nat).
  assert (minLength ≤ length ema9 ∧ minLength ≤ length ema20
          ∧ minLength ≤ length ema200 ∧ minLength ≤ length klineData)%nat
    as (H9 & H20 & H200 & Hfit).
  { pose proof (length_calculateEMA closePrices 200) as Hlen.
    fold ema200 in Hlen.
    assert (length closePrices = length klineData) as Hcloses
      by apply length_fmap.
    destruct (decide (length closePrices < 200)%nat); lia. }
  clearbody minLength.
  destruct (mapM_seq_total
              (ema_point_at klineData ema9 ema20 ema200 minLength
                 (length klineData - minLength)) 0 minLength)
    as [emaData ->].
  { intros i Hi. unfold ema_point_at.
    destruct (lookup_lt_is_Some_2 klineData
                (length klineData - minLength + i)) as [candle ->]; [lia|].
    destruct (lookup_lt_is_Some_2 ema9 (length ema9 - minLength + i))
      as [e9 ->]; [lia|].
    destruct (lookup_lt_is_Some_2 ema20 (length ema20 - minLength + i))
      as [e20 ->]; [lia|].
    destruct (lookup_lt_is_Some_2 ema200 i) as [e200 ->]; [lia|].
    done. }
  simpl.
  destruct (calculateMACD_total now_macd closePrices 12 26 9)
    as [macdData ->]; [lia..|].
  simpl.
  destruct (detectSupplyDemandZones_total klineData) as (zones & -> & _).
  simpl.
  destruct (detectEMABounceSignal_total now_bounce klineData
              (calculateVWAP klineData) 9 20 200 12 26 9
              default_tolPct default_maxWait) as [bounce ->]; [lia..|].
  done.
Qed.

(** Apart from the timestamps of the MACD points the bundle does not depend
    on the clock. *)
Lemma analyzeData_clock_free (now_macd now_bounce now_macd' now_bounce' : nat → Z)
    (exchange : Exchange) (tradingType : TradingType) (symbol : string)
    (timeframe : Timeframe) (klineData : list KlineData.t) :
  clock_free <$> analyzeData now_macd now_bounce exchange tradingType symbol
                   timeframe klineData
  = clock_free <$> analyzeData now_macd' now_bounce' exchange tradingType
                     symbol timeframe klineData.
Proof.
  unfold analyzeData.
  destruct (mapM _ _) as [emaData|]; [|done]. simpl.
  pose proof (calculateMACD_values now_macd now_macd'
                (KlineData.close <$> klineData) 12 26 9) as Hvalues.
  destruct (calculateMACD now_macd _ _ _ _) as [macdData|],
    (calculateMACD now_macd' _ _ _ _) as [macdData'|];
    simpl in Hvalues; try done.
  injection Hvalues as Hvalues. simpl.
  destruct (detectSupplyDemandZones klineData) as [zones|]; [|done]. simpl.
  rewrite (detectEMABounceSignal_clock now_bounce now_bounce').
  destruct (detectEMABounceSignal now_bounce' _ _ _ _ _ _ _ _ _ _)
    as [bounce|]; [|done].
  simpl. unfold clock_free. simpl. by rewrite Hvalues.
Qed.

(** C2 as the code has it.  Two invocations on the same candles and
    configuration agree on everything but the timestamps of the MACD
    points: the oscillator values of [calculateMACD] and all the rest of the
    bundle of [analyzeData] are the same under any two clocks, and the
    timestamp of MACD point [i] of [n] is the clock reading at the moment
    it is written less [n − i − 1] minutes. *)
Theorem reproducible_up_to_macd_timestamps :
  (∀ now now' prices fastPeriod slowPeriod signalPeriod,
     fmap (M := list) macd_values
       <$> calculateMACD now prices fastPeriod slowPeriod signalPeriod
     = fmap (M := list) macd_values
         <$> calculateMACD now' prices fastPeriod slowPeriod signalPeriod)
  ∧ (∀ now_macd now_bounce now_macd' now_bounce' exchange tradingType symbol
       timeframe klineData,
       clock_free <$> analyzeData now_macd now_bounce exchange tradingType
                        symbol timeframe klineData
       = clock_free <$> analyzeData now_macd' now_bounce' exchange
                          tradingType symbol timeframe klineData)
  ∧ (∀ now prices fastPeriod slowPeriod signalPeriod points,
       calculateMACD now prices fastPeriod slowPeriod signalPeriod
         = Some points →
       ∀ i point, points !! i = Some point →
         MACDData.timestamp point
           = (now i - (Z.of_nat (length points) - Z.of_nat i - 1) * 60000)%Z).
Proof.
  split; [apply calculateMACD_values|].
  split; [apply analyzeData_clock_free|].
  apply calculateMACD_timestamps.
Qed.

(** C2 as stated fails: with the clock one minute further the same
    prices give another MACD output, and the same candles another
    bundle. *)
Lemma calculateMACD_not_reproducible :
  calculateMACD (λ _, 1700000000000%Z) flat_prices 12 26 9
    ≠ calculateMACD (λ _, 1700000060000%Z) flat_prices 12 26 9
  ∧ analyzeData (λ _, 1700000000000%Z) (λ _, 1700000000000%Z)
      binance spot "BTCUSDT" tf_1m flat_candles
    ≠ analyzeData (λ _, 1700000060000%Z) (λ _, 1700000060000%Z)
        binance spot "BTCUSDT" tf_1m flat_candles.
Proof.
  split; intros Heq.
  - apply (f_equal (fmap (fmap (M := list) MACDData.timestamp))) in Heq.
    vm_compute in Heq. discriminate.
  - apply (f_equal
             (fmap (λ r, MACDData.timestamp <$> Analysis.macdData r))) in Heq.
    vm_compute in Heq. discriminate.
Qed.

Lemma reproducible_up_to_macd_timestamps_witness :
  ∃ point,
    calculateMACD (λ _, 1700000000000%Z) flat_prices 12 26 9 = Some [point]
    ∧ MACDData.timestamp point = 1700000000000%Z.
Proof.
  destruct reproducible_up_to_macd_timestamps as (_ & _ & Htimestamps).
  assert (length <$> calculateMACD (λ _, 1700000000000%Z)
                       flat_prices 12 26 9 = Some 1%nat) as Hrun
    by (vm_compute; reflexivity).
  destruct (calculateMACD _ _ _ _ _) as [points|] eqn:Hpoints; [|done].
  destruct points as [|point [|? ?]]; try done.
  exists point. split; [done|].
  by rewrite (Htimestamps _ _ _ _ _ _ Hpoints 0%nat point eq_refl).
Defined.

(** ** The merged signal list *)

Lemma chronological_constant (t : Z) (timestamps : list Z) :
  Forall (λ t', t' = t) timestamps → chronological timestamps.
Proof.
  induction 1 as [|t' rest -> Hrest IH]; constructor; [done|].
  eapply Forall_impl; [exact Hrest|]. simpl. intros ? ->. done.
Qed.

Lemma zone_signals_timestamps (zones : list SupplyDemandZone.t)
    (candle : KlineData.t) (t : Z) :
  t ∈ SupplyDemandSignal.timestamp
        <$> (zones ≫= λ zone, zone_signals candle zone) →
  t = KlineData.closeTime candle.
Proof.
  intros (signal & -> & Hs)%list_elem_of_fmap.
  apply list_elem_of_bind in Hs as (zone & Hs & _).
  by apply zone_signals_inv in Hs as (-> & _).
Qed.

(** The zone signals follow the order of the candles. *)
Lemma zone_signals_chronological (zones : list SupplyDemandZone.t)
    (candles : list KlineData.t) :
  chronological (KlineData.closeTime <$> candles) →
  chronological
    (SupplyDemandSignal.timestamp
       <$> (candles ≫= λ candle, zones ≫= λ zone, zone_signals candle zone)).
Proof.
  unfold chronological.
  induction candles as [|candle rest IH]; intros Hsorted; [constructor|].
  rewrite fmap_cons in Hsorted.
  apply StronglySorted_cons in Hsorted as [Hlater Hrest].
  rewrite bind_cons, fmap_app. apply StronglySorted_app_2; [| |by apply IH].
  - intros t1 t2 ->%zone_signals_timestamps Ht2.
    apply list_elem_of_fmap in Ht2 as (signal & -> & Hs).
    apply list_elem_of_bind in Hs as (candle' & Hs & Hc).
    apply list_elem_of_bind in Hs as (zone & Hs & _).
    apply zone_signals_inv in Hs as (-> & _).
    rewrite Forall_forall in Hlater. apply Hlater.
    apply list_elem_of_fmap. eauto.
  - apply (chronological_constant (KlineData.closeTime candle)).
    apply Forall_forall. intros t. apply zone_signals_timestamps.
Qed.

Lemma detectSupplyDemandSignals_chronological (klineData : list KlineData.t)
    (zones : list SupplyDemandZone.t) :
  chronological (KlineData.closeTime <$> klineData) →
  chronological
    (SupplyDemandSignal.timestamp
       <$> detectSupplyDemandSignals klineData zones).
Proof.
  intros Hsorted. unfold detectSupplyDemandSignals.
  destruct (_ || _); [constructor|].
  apply zone_signals_chronological. unfold slice_last.
  rewrite fmap_drop.
  eapply StronglySorted_sublist; [apply sublist_drop|done].
Qed.

Lemma detectEMABounceSignal_chronological (now : nat → Z)
    (klineData : list KlineData.t) (vwapData : list VWAPData.t)
    (fastLen medLen slowLen macdFast macdSlow macdSig : nat)
    (tolPct : Qc) (maxWait : Z) (signals : list EMABounceSignal.t) :
  chronological (KlineData.closeTime <$> klineData) →
  detectEMABounceSignal now klineData vwapData fastLen medLen slowLen
    macdFast macdSlow macdSig tolPct maxWait = Some signals →
  chronological (EMABounceSignal.timestamp <$> signals).
Proof.
  intros Hsorted. unfold detectEMABounceSignal.
  case_decide; [intros [= <-]; constructor|].
  destruct (calculateMACD _ _ _ _ _) as [macdData|]; [|done]. simpl.
  intros Hloop%bounce_loop_sublist. simpl in Hloop.
  eapply StronglySorted_sublist; [exact Hloop|].
  rewrite fmap_drop.
  eapply StronglySorted_sublist; [apply sublist_drop|done].
Qed.

(** C3 as the code has it.  On candles whose close times do not decrease,
    [allSignals] is the run of the bounce signals followed by the run of
    the zone signals; each run is in chronological order (the list as a
    whole need not be), and every element has the id
    [{tag}_{timestamp}], the tag being [ema] for the bounce strategy and
    [sd] for the zone strategy. *)
Theorem allSignals_two_chronological_runs (now_macd now_bounce : nat → Z)
    (exchange : Exchange) (tradingType : TradingType) (symbol : string)
    (timeframe : Timeframe) (klineData : list KlineData.t) :
  chronological (KlineData.closeTime <$> klineData) →
  ∃ result bounce zone,
    analyzeData now_macd now_bounce exchange tradingType symbol timeframe
      klineData = Some result
    ∧ Analysis.allSignals result = bounce ++ zone
    ∧ Forall (λ signal, TradingSignal.strategy signal = ema_bounce) bounce
    ∧ Forall (λ signal, TradingSignal.strategy signal = supply_demand) zone
    ∧ chronological (TradingSignal.timestamp <$> bounce)
    ∧ chronological (TradingSignal.timestamp <$> zone)
    ∧ Forall id_well_formed (Analysis.allSignals result).
Proof.
  intros Hsorted.
  destruct (analyzeData_total now_macd now_bounce exchange tradingType symbol
              timeframe klineData) as [result Hrun].
  destruct (analyzeData_Some _ _ _ _ _ _ _ _ Hrun)
    as (_ & _ & Hbounce & _ & Hzone & Hall).
  exists result. eexists _, _. split; [done|]. split; [exact Hall|].
  split; [|split; [|split; [|split]]].
  - apply Forall_fmap, Forall_true. done.
  - apply Forall_fmap, Forall_true. done.
  - rewrite <- list_fmap_compose.
    by eapply detectEMABounceSignal_chronological.
  - rewrite <- list_fmap_compose, Hzone.
    by apply detectSupplyDemandSignals_chronological.
  - rewrite Hall. apply Forall_app.
    split; apply Forall_fmap, Forall_true; done.
Qed.

Lemma bounce_candles_chronological :
  chronological (KlineData.closeTime <$> bounce_candles).
Proof.
  apply (bool_decide_unpack
           (StronglySorted Z.le (KlineData.closeTime <$> bounce_candles))).
  vm_compute. exact I.
Qed.

(** C3 as stated fails: on [bounce_candles], whose close times
    increase, the merged list starts with the bounce signal of candle 200
    and goes on with the zone signal of candle 152. *)
Lemma allSignals_not_chronological :
  chronological (KlineData.closeTime <$> bounce_candles)
  ∧ ∃ result,
      analyzeData (λ _, 0%Z) (λ _, 0%Z) binance spot "BTCUSDT" tf_1m
        bounce_candles = Some result
      ∧ TradingSignal.timestamp <$> take 2 (Analysis.allSignals result)
          = [12060000%Z; 9180000%Z]
      ∧ ¬ chronological
            (TradingSignal.timestamp <$> Analysis.allSignals result).
Proof.
  split; [apply bounce_candles_chronological|].
  assert ((λ result,
             TradingSignal.timestamp <$> take 2 (Analysis.allSignals result))
            <$> analyzeData (λ _, 0%Z) (λ _, 0%Z) binance spot "BTCUSDT"
                  tf_1m bounce_candles
          = Some [12060000%Z; 9180000%Z]) as Hrun
    by (vm_compute; reflexivity).
  destruct (analyzeData _ _ _ _ _ _ _) as [result|]; [|done].
  injection Hrun as Hrun. exists result. split; [done|]. split; [done|].
  destruct (Analysis.allSignals result) as [|first [|second rest]];
    try done.
  injection Hrun as Hfirst Hsecond. unfold chronological.
  rewrite !fmap_cons, Hfirst, Hsecond.
  intros [Hle _]%StronglySorted_cons.
  apply Forall_cons in Hle as [Hle _]. lia.
Qed.

Lemma allSignals_two_chronological_runs_witness :
  ∃ result bounce zone,
    analyzeData (λ _, 0%Z) (λ _, 0%Z) binance spot "BTCUSDT" tf_1m
      bounce_candles = Some result
    ∧ Analysis.allSignals result = bounce ++ zone
    ∧ Forall (λ signal, TradingSignal.strategy signal = ema_bounce) bounce
    ∧ Forall (λ signal, TradingSignal.strategy signal = supply_demand) zone
    ∧ chronological (TradingSignal.timestamp <$> bounce)
    ∧ chronological (TradingSignal.timestamp <$> zone)
    ∧ Forall id_well_formed (Analysis.allSignals result).
Proof.
  apply (allSignals_two_chronological_runs (λ _, 0%Z) (λ _, 0%Z) binance
           spot "BTCUSDT" tf_1m bounce_candles).
  apply (bool_decide_unpack
           (StronglySorted Z.le (KlineData.closeTime <$> bounce_candles))).
  vm_compute. exact I.
Defined.


(** * Further properties of the service *)

(** ** [calculateVWAP] is the volume-weighted mean *)

(** Point [i] of [calculateVWAP] carries the close time and the volume of
    candle [i]; its value is the sum of [(high + low + close) / 3 × volume]
    over the candles up to [i] divided by the sum of their volumes when
    that sum is positive, and [(high + low + close) / 3] of candle [i]
    otherwise. *)
Theorem calculateVWAP_point (klineData : list KlineData.t) (i : nat)
    (candle : KlineData.t) :
  klineData !! i = Some candle →
  let typical (c : KlineData.t) : Qc :=
    (KlineData.high c + KlineData.low c + KlineData.close c) / Qc_of_Z 3 in
  let volume_sum :=
    foldr Qcplus 0 (KlineData.volume <$> take (S i) klineData) in
  let weighted_sum :=
    foldr Qcplus 0
      ((λ c, typical c * KlineData.volume c) <$> take (S i) klineData) in
  calculateVWAP klineData !! i
    = Some (VWAPData.mk (KlineData.closeTime candle)
              (if decide (0 < volume_sum)
               then weighted_sum / volume_sum
               else typical candle)
              (KlineData.volume candle)).
Proof.
  intros Hi typical volume_sum weighted_sum. unfold calculateVWAP.
  rewrite (vwap_loop_lookup _ _ _ _ _ Hi), !Qcplus_0_l. reflexivity.
Qed.

(** On [weighted_sample] (volumes 2, 1 and 5; the quotients are 32/3, 35/3
    and 38/3) the third point is [(64/3 + 35/3 + 190/3) / 8 = 289/24]. *)
Lemma calculateVWAP_point_witness :
  calculateVWAP weighted_sample !! 2%nat
    = Some (VWAPData.mk 180000 (Q2Qc (289 # 24)) (Qc_of_Z 5)).
Proof.
  rewrite (calculateVWAP_point weighted_sample 2 (candle 180000 12 14 11 13 5)
             eq_refl).
  f_equal; f_equal; qc_compute.
Defined.

(** ** The structure of [calculateMACD] *)

Lemma get_Z_Some {A : Type} (xs : list A) (i : Z) (x : A) :
  get_Z xs i = Some x → (0 ≤ i)%Z ∧ xs !! Z.to_nat i = Some x.
Proof. unfold get_Z. by case_decide. Qed.

(** With the fast period not longer than the slow one and a signal period
    of at least 1, [calculateMACD] returns; [macdLine] is the oscillator line
    it builds on the way. *)
Lemma calculateMACD_structure (now : nat → Z) (prices : list Qc)
    (fastPeriod slowPeriod signalPeriod : nat) :
  (fastPeriod ≤ slowPeriod)%nat → (1 ≤ signalPeriod)%nat →
  ∃ macdLine points,
    calculateMACD now prices fastPeriod slowPeriod signalPeriod = Some points
    ∧ length macdLine = (length prices + 1 - slowPeriod)%nat
    ∧ (∀ j m, macdLine !! j = Some m →
         ∃ fast slow,
           calculateEMA prices fastPeriod
             !! (j + (slowPeriod - fastPeriod))%nat = Some fast
           ∧ calculateEMA prices slowPeriod !! j = Some slow
           ∧ m = fast - slow)
    ∧ length points = length (calculateEMA macdLine signalPeriod)
    ∧ (∀ i point, points !! i = Some point →
         ∃ m signal,
           macdLine !! (i + (signalPeriod - 1))%nat = Some m
           ∧ calculateEMA macdLine signalPeriod !! i = Some signal
           ∧ MACDData.macd point = m
           ∧ MACDData.signal point = signal
           ∧ MACDData.histogram point = m - signal).
Proof.
  intros Hperiods Hsig. unfold calculateMACD.
  pose proof (length_calculateEMA prices fastPeriod) as Hfast.
  pose proof (length_calculateEMA prices slowPeriod) as Hslow.
  destruct (decide (length prices < slowPeriod)%nat) as [Hshort|Hlong].
  - rewrite (bool_decide_eq_true_2 (length (calculateEMA prices slowPeriod) = 0%nat))
      by done.
    rewrite orb_true_r. exists [], []. split; [done|].
    split; [simpl; lia|]. split; [done|]. split; [|done].
    rewrite length_calculateEMA. by rewrite decide_True by (simpl; lia).
  - rewrite decide_False in Hfast by lia.
    rewrite !bool_decide_eq_false_2 by lia. simpl orb. cbv iota.
    destruct (macd_line_total prices fastPeriod slowPeriod Hperiods)
      as [macdLine HmacdLine]; [lia|].
    rewrite HmacdLine. simpl.
    destruct (macd_points_total now macdLine signalPeriod Hsig)
      as [points Hpoints].
    exists macdLine, points. split; [done|].
    pose proof (length_mapM _ _ _ HmacdLine) as Hlen.
    rewrite length_seq in Hlen.
    pose proof (length_mapM _ _ _ Hpoints) as Hlen'.
    rewrite length_seq in Hlen'.
    split; [lia|]. split; [|split; [done|]].
    + intros j m Hj. apply mapM_Some_1 in HmacdLine.
      destruct (Forall2_lookup_r _ _ _ _ _ HmacdLine Hj) as (j' & Hj' & Hm).
      apply lookup_seq in Hj' as [-> _]. simpl in Hm.
      unfold macd_line_at in Hm.
      destruct (get_Z _ _) as [fast|] eqn:Hget; [|done]. simpl in Hm.
      destruct (calculateEMA prices slowPeriod !! j) as [slow|]; [|done].
      injection Hm as <-. apply get_Z_Some in Hget as [_ Hget].
      exists fast, slow. split; [|done].
      rewrite <- Hget. f_equal. lia.
    + intros i point Hi. apply mapM_Some_1 in Hpoints.
      destruct (Forall2_lookup_r _ _ _ _ _ Hpoints Hi) as (i' & Hi' & Hp).
      apply lookup_seq in Hi' as [-> Hrange]. simpl in Hp.
      unfold macd_point_at in Hp.
      destruct (get_Z _ _) as [m|] eqn:Hget; [|done]. simpl in Hp.
      destruct (calculateEMA macdLine signalPeriod !! i) as [signal|];
        [|done].
      injection Hp as <-. apply get_Z_Some in Hget as [_ Hget].
      exists m, signal. split; [|done].
      rewrite <- Hget. f_equal.
      rewrite length_calculateEMA in Hrange |- *.
      destruct (decide (length macdLine < signalPeriod)%nat);
        [simpl in Hrange; lia|lia].
Qed.

(** With the fast period not longer than the slow one and a signal period
    of at least 1, [calculateMACD] returns
    [length prices + 2 − (slowPeriod + signalPeriod)] points (none when the
    history is shorter than [slowPeriod + signalPeriod − 1]).  The oscillator
    of point [i] is the fast average less the slow average of one and the
    same price, the one at position [i + slowPeriod + signalPeriod − 2], and
    the histogram is the oscillator less the signal. *)
Theorem calculateMACD_points (now : nat → Z) (prices : list Qc)
    (fastPeriod slowPeriod signalPeriod : nat) :
  (1 ≤ fastPeriod ≤ slowPeriod)%nat → (1 ≤ signalPeriod)%nat →
  ∃ points,
    calculateMACD now prices fastPeriod slowPeriod signalPeriod = Some points
    ∧ length points
        = (length prices + 2 - (slowPeriod + signalPeriod))%nat
    ∧ ∀ i point, points !! i = Some point →
        let position := (i + slowPeriod + signalPeriod - 2)%nat in
        ∃ fast slow,
          calculateEMA prices fastPeriod !! (position + 1 - fastPeriod)%nat
            = Some fast
          ∧ calculateEMA prices slowPeriod !! (position + 1 - slowPeriod)%nat
              = Some slow
          ∧ MACDData.macd point = fast - slow
          ∧ MACDData.histogram point
              = MACDData.macd point - MACDData.signal point.
Proof.
  intros [Hfast Hperiods] Hsig.
  destruct (calculateMACD_structure now prices fastPeriod slowPeriod
              signalPeriod Hperiods Hsig)
    as (macdLine & points & Hrun & Hlen & Hline & Hlen' & Hpoints).
  exists points. split; [done|]. split.
  - rewrite Hlen', length_calculateEMA, Hlen. case_decide; lia.
  - intros i point Hi position.
    destruct (Hpoints i point Hi) as (m & signal & Hm & _ & -> & -> & Hhist).
    destruct (Hline _ _ Hm) as (fast & slow & Hf & Hs & ->).
    exists fast, slow. split; [|split; [|done]].
    + rewrite <- Hf. f_equal. unfold position. lia.
    + rewrite <- Hs. f_equal. unfold position. lia.
Qed.

Lemma calculateMACD_points_witness :
  ∃ points,
    calculateMACD (λ _, 0%Z) flat_prices 12 26 9 = Some points
    ∧ length points = (length flat_prices + 2 - (26 + 9))%nat
    ∧ ∀ i point, points !! i = Some point →
        let position := (i + 26 + 9 - 2)%nat in
        ∃ fast slow,
          calculateEMA flat_prices 12 !! (position + 1 - 12)%nat = Some fast
          ∧ calculateEMA flat_prices 26 !! (position + 1 - 26)%nat = Some slow
          ∧ MACDData.macd point = fast - slow
          ∧ MACDData.histogram point
              = MACDData.macd point - MACDData.signal point.
Proof.
  apply (calculateMACD_points (λ _, 0%Z) flat_prices 12 26 9); lia.
Defined.

(** ** Where zones come from *)

Lemma zone_candidates_timestamp (current prev : KlineData.t) zone :
  zone ∈ zone_candidates current prev →
  SupplyDemandZone.timestamp zone = KlineData.closeTime current.
Proof. intros H. zone_cases H; done. Qed.

(** Every zone the scan pushes is a candidate of a visited index. *)
Lemma zone_loop_origin (klineData : list KlineData.t) (indices : list nat) :
  ∀ zones, zone_loop klineData indices = Some zones →
  ∀ zone, zone ∈ zones →
    ∃ i current prev, i ∈ indices
      ∧ klineData !! i = Some current
      ∧ klineData !! (i - 1)%nat = Some prev
      ∧ zone ∈ zone_candidates current prev.
Proof.
  induction indices as [|i rest IH]; intros zones Hloop zone Hz;
    simpl in Hloop.
  - injection Hloop as <-. by apply elem_of_nil in Hz.
  - unfold zones_at in Hloop.
    destruct (klineData !! i) as [current|] eqn:Hc; [|done].
    simpl in Hloop.
    destruct (klineData !! (i - 1)%nat) as [prev|] eqn:Hp; [|done].
    simpl in Hloop.
    destruct (klineData !! (i + 1)%nat) as [next|]; [|done].
    simpl in Hloop.
    destruct (zone_loop klineData rest) as [later|] eqn:Hlater; [|done].
    injection Hloop as <-.
    apply elem_of_app in Hz as [Hz|Hz].
    + exists i, current, prev. split; [apply elem_of_cons; by left|done].
    + destruct (IH later eq_refl zone Hz) as (j & cur & prv & Hj & Hrest).
      exists j, cur, prv. split; [apply elem_of_cons; by right|done].
Qed.

(** [detectSupplyDemandZones] returns at most twenty zones, and each of
    them was built from a candle that is neither among the first two nor
    among the last two of the sequence, and carries its close time. *)
Theorem detected_zones_origin (klineData : list KlineData.t) :
  ∃ zones,
    detectSupplyDemandZones klineData = Some zones
    ∧ (length zones ≤ 20)%nat
    ∧ Forall (λ zone, ∃ i current prev,
                (2 ≤ i)%nat ∧ (i + 2 < length klineData)%nat
                ∧ klineData !! i = Some current
                ∧ klineData !! (i - 1)%nat = Some prev
                ∧ zone ∈ zone_candidates current prev
                ∧ SupplyDemandZone.timestamp zone
                    = KlineData.closeTime current) zones.
Proof.
  unfold detectSupplyDemandZones. case_decide.
  - exists []. split; [done|]. split; [simpl; lia|constructor].
  - destruct (zone_scan_total klineData) as (candidates & Hscan & _).
    rewrite Hscan. simpl.
    destruct (consolidateZones_total candidates)
      as (kept & -> & Hlen & Hkept).
    exists kept. split; [done|]. split; [done|].
    apply Forall_forall. intros zone Hz%Hkept.
    destruct (zone_loop_origin _ _ _ Hscan zone Hz)
      as (i & current & prev & Hi & Hc & Hp & Hzone).
    apply elem_of_seq in Hi. exists i, current, prev.
    repeat split; try done; try lia.
    by eapply zone_candidates_timestamp.
Qed.

Lemma Math_min_idemp (c : Qc) : Math_min c c = c.
Proof. unfold Math_min. by case_decide. Qed.

Lemma Math_max_idemp (c : Qc) : Math_max c c = c.
Proof. unfold Math_max. by case_decide. Qed.

Lemma zone_candidates_flat (c : Qc) (current prev : KlineData.t) :
  flat_at c current → KlineData.close prev = c →
  zone_candidates current prev = [].
Proof.
  intros (Ho & Hh & Hl & Hc) Hp. unfold zone_candidates.
  rewrite Ho, Hh, Hl, Hc, Hp, Math_min_idemp, Math_max_idemp.
  replace (c - c) with 0 by ring.
  assert (bool_decide (c < c) = false) as ->.
  { apply bool_decide_eq_false_2. apply (irreflexivity (<)%Qc). }
  assert (bool_decide (Math_abs 0 * 2 < 0) = false) as ->.
  { by vm_compute. }
  done.
Qed.

(** A market that does not move has no zones: on candles that are all
    flat at one price [detectSupplyDemandZones] returns the empty list. *)
Theorem flat_market_has_no_zones (klineData : list KlineData.t) (c : Qc) :
  Forall (flat_at c) klineData →
  detectSupplyDemandZones klineData = Some [].
Proof.
  intros Hflat. rewrite Forall_forall in Hflat.
  unfold detectSupplyDemandZones. case_decide; [done|].
  destruct (zone_scan_total klineData) as (candidates & Hscan & _).
  rewrite Hscan. simpl.
  assert (candidates = []) as ->; [|done].
  apply elem_of_nil_inv. intros zone Hz.
  destruct (zone_loop_origin _ _ _ Hscan zone Hz)
    as (i & current & prev & _ & Hc & Hp & Hzone).
  rewrite (zone_candidates_flat c) in Hzone.
  - by apply elem_of_nil in Hzone.
  - apply Hflat. by eapply list_elem_of_lookup_2.
  - apply list_elem_of_lookup_2, Hflat in Hp. by destruct Hp as (_ & _ & _ & ?).
Qed.

Lemma flat_market_has_no_zones_witness :
  detectSupplyDemandZones flat_candles = Some [].
Proof.
  apply (flat_market_has_no_zones flat_candles (Qc_of_Z 100)).
  unfold flat_candles. apply Forall_fmap, Forall_true. done.
Defined.

(** ** What consolidation does *)

Lemma zones_overlap_false (a b : SupplyDemandZone.t) :
  ¬ overlapping a b → zones_overlap a b = false.
Proof.
  intros Hno. unfold zones_overlap.
  destruct (bool_decide _ && bool_decide _ && bool_decide _) eqn:Hov; [|done].
  destruct Hno.
  apply andb_prop in Hov as [[H1 H2]%andb_prop H3].
  repeat split; by eapply bool_decide_eq_true_1.
Qed.

Lemma zones_overlap_true (a b : SupplyDemandZone.t) :
  overlapping a b → zones_overlap a b = true.
Proof.
  intros (Htype & Hlow & Hhigh). unfold zones_overlap.
  by rewrite !bool_decide_eq_true_2.
Qed.

Lemma scan_consolidated_no_overlap (zone : SupplyDemandZone.t)
    (consolidated : list SupplyDemandZone.t) (n : nat) :
  (n ≤ length consolidated)%nat →
  (∀ i existing, consolidated !! i = Some existing →
     ¬ overlapping zone existing) →
  scan_consolidated zone consolidated n = Some (consolidated, true).
Proof.
  intros Hn Hfree. induction n as [|i IH]; simpl; [done|].
  destruct (lookup_lt_is_Some_2 consolidated i) as [existing He]; [lia|].
  rewrite He. simpl.
  rewrite (zones_overlap_false zone existing) by by eapply Hfree.
  apply IH. lia.
Qed.

Lemma consolidate_loop_overlap_free (rest : list SupplyDemandZone.t) :
  ∀ consolidated,
    overlap_free (consolidated ++ rest) →
    consolidate_loop consolidated rest = Some (consolidated ++ rest).
Proof.
  induction rest as [|zone rest IH]; intros consolidated Hfree; simpl.
  - by rewrite app_nil_r.
  - rewrite scan_consolidated_no_overlap; [|done|].
    + simpl. rewrite IH; rewrite <- app_assoc; done.
    + intros i existing Hi.
      apply (Hfree (length consolidated) i).
      * apply lookup_lt_Some in Hi. lia.
      * by rewrite lookup_app_r, Nat.sub_diag by lia.
      * by rewrite lookup_app_l by by eapply lookup_lt_Some.
Qed.

(** Candidates of which no two overlap all pass consolidation, in their
    order; the last twenty of them are returned. *)
Theorem consolidateZones_overlap_free (zones : list SupplyDemandZone.t) :
  overlap_free zones →
  consolidateZones zones = Some (slice_last 20 zones).
Proof.
  intros Hfree. unfold consolidateZones.
  by rewrite consolidate_loop_overlap_free.
Qed.

Lemma consolidateZones_overlap_free_witness :
  consolidateZones [zone_around_20; zone_around_40]
    = Some (slice_last 20 [zone_around_20; zone_around_40]).
Proof.
  apply (consolidateZones_overlap_free [zone_around_20; zone_around_40]).
  intros i j a b Hij Hi Hj (_ & Hlow & Hhigh).
  destruct i as [|[|i]], j as [|[|j]]; try done;
    injection Hi as <-; injection Hj as <-; revert Hlow Hhigh;
    vm_compute; intros H1 H2; first [by apply H1|by apply H2].
Defined.

(** When a candidate overlaps the one accepted zone of its type, a single
    zone is left: the candidate if it is strictly stronger, the accepted
    zone otherwise (also on a tie). *)
Theorem consolidateZones_conflict (accepted candidate : SupplyDemandZone.t) :
  overlapping candidate accepted →
  consolidateZones [accepted; candidate]
    = Some [if decide (getZoneStrengthValue
                         (SupplyDemandZone.strength accepted)
                       < getZoneStrengthValue
                           (SupplyDemandZone.strength candidate))%nat
            then candidate else accepted].
Proof.
  intros Hov%zones_overlap_true. unfold consolidateZones. simpl.
  rewrite Hov. simpl. by case_decide.
Qed.

Lemma consolidateZones_conflict_witness :
  consolidateZones [zone_around_40; zone_20_to_36] = Some [zone_20_to_36].
Proof.
  apply (consolidateZones_conflict zone_around_40 zone_20_to_36).
  repeat split; by vm_compute.
Defined.

(** ** Signals from zones: both directions *)

Lemma zone_signals_supply (candle : KlineData.t) (zone : SupplyDemandZone.t) :
  SupplyDemandZone.isValid zone = true →
  SupplyDemandZone.type zone = supply →
  KlineData.low candle ≤ SupplyDemandZone.high zone →
  SupplyDemandZone.low zone ≤ KlineData.high candle →
  KlineData.close candle < SupplyDemandZone.high zone →
  zone_signals candle zone = [supply_sell_signal candle zone].
Proof.
  intros Hvalid Htype Hlow Hhigh Hclose. unfold zone_signals.
  rewrite Hvalid, Htype. simpl.
  rewrite !bool_decide_eq_true_2 by done. simpl.
  unfold supply_sell_signal.
  by rewrite (Qcmult_comm 2).
Qed.

(** For a candle among the fifty most recent and a valid supply zone that
    the candle's range meets and whose high is over the candle's close,
    [detectSupplyDemandSignals] emits the sell signal with stop
    [zoneHigh × 1.01], target [zoneLow − 2 × (zoneHigh − zoneLow)] and
    reward-risk [(price − target) / (stop − price)]. *)
Theorem supply_zone_sell_signal (klineData : list KlineData.t)
    (zones : list SupplyDemandZone.t) (candle : KlineData.t)
    (zone : SupplyDemandZone.t) :
  candle ∈ slice_last 50 klineData →
  zone ∈ zones →
  SupplyDemandZone.isValid zone = true →
  SupplyDemandZone.type zone = supply →
  KlineData.low candle ≤ SupplyDemandZone.high zone →
  SupplyDemandZone.low zone ≤ KlineData.high candle →
  KlineData.close candle < SupplyDemandZone.high zone →
  supply_sell_signal candle zone ∈ detectSupplyDemandSignals klineData zones.
Proof.
  intros Hc Hz Hvalid Htype Hlow Hhigh Hclose.
  unfold detectSupplyDemandSignals.
  destruct klineData as [|c0 rest]; [by apply elem_of_nil in Hc|].
  destruct zones as [|z0 zones']; [by apply elem_of_nil in Hz|].
  simpl orb. cbv iota.
  apply list_elem_of_bind. exists candle. split; [|done].
  apply list_elem_of_bind. exists zone. split; [|done].
  rewrite zone_signals_supply by done. by apply list_elem_of_singleton.
Qed.

Lemma supply_zone_sell_signal_witness :
  supply_sell_signal (candle 600000 36 36 36 36 1) supply_sample
    ∈ detectSupplyDemandSignals overlap_candles [supply_sample].
Proof.
  apply (supply_zone_sell_signal overlap_candles [supply_sample]).
  - apply (list_elem_of_lookup_2 _ 9%nat). reflexivity.
  - apply (list_elem_of_lookup_2 _ 0%nat). reflexivity.
  - reflexivity.
  - reflexivity.
  - by vm_compute.
  - by vm_compute.
  - by vm_compute.
Defined.

Lemma zone_signals_cases (candle : KlineData.t) (zone : SupplyDemandZone.t)
    (signal : SupplyDemandSignal.t) :
  signal ∈ zone_signals candle zone →
  SupplyDemandZone.isValid zone = true
  ∧ KlineData.low candle ≤ SupplyDemandZone.high zone
  ∧ SupplyDemandZone.low zone ≤ KlineData.high candle
  ∧ ((SupplyDemandZone.type zone = demand
      ∧ SupplyDemandZone.low zone < KlineData.close candle
      ∧ signal = demand_buy_signal candle zone)
     ∨ (SupplyDemandZone.type zone = supply
        ∧ KlineData.close candle < SupplyDemandZone.high zone
        ∧ signal = supply_sell_signal candle zone)).
Proof.
  unfold zone_signals. intros H.
  destruct (SupplyDemandZone.isValid zone); [|by apply elem_of_nil in H].
  simpl in H. split; [done|].
  destruct (bool_decide (KlineData.low candle ≤ _)) eqn:Hlow;
    [|by apply elem_of_nil in H].
  destruct (bool_decide (SupplyDemandZone.low zone ≤ _)) eqn:Hhigh;
    [|by apply elem_of_nil in H].
  apply bool_decide_eq_true_1 in Hlow, Hhigh. simpl in H.
  split; [done|]. split; [done|].
  destruct (bool_decide (SupplyDemandZone.type zone = demand)) eqn:Hd.
  - apply bool_decide_eq_true_1 in Hd. simpl in H.
    destruct (bool_decide (SupplyDemandZone.low zone < _)) eqn:Hclose.
    + apply bool_decide_eq_true_1 in Hclose.
      apply list_elem_of_singleton in H as ->. left.
      split; [done|]. split; [done|].
      unfold demand_buy_signal. by rewrite (Qcmult_comm 2).
    + rewrite Hd in H. simpl in H. by apply elem_of_nil in H.
  - simpl in H.
    destruct (bool_decide (SupplyDemandZone.type zone = supply)) eqn:Hs;
      [|by apply elem_of_nil in H].
    apply bool_decide_eq_true_1 in Hs. simpl in H.
    destruct (bool_decide (KlineData.close candle < _)) eqn:Hclose;
      [|by apply elem_of_nil in H].
    apply bool_decide_eq_true_1 in Hclose.
    apply list_elem_of_singleton in H as ->. right.
    split; [done|]. split; [done|].
    unfold supply_sell_signal. by rewrite (Qcmult_comm 2).
Qed.

(** Nothing else is emitted: every signal of [detectSupplyDemandSignals]
    belongs to one of the fifty most recent candles and a valid zone that
    the candle's range meets, and it is the buy signal of a demand zone
    whose low is under the close or the sell signal of a supply zone whose
    high is over the close. *)
Theorem zone_signals_sound (klineData : list KlineData.t)
    (zones : list SupplyDemandZone.t) :
  Forall (λ signal, ∃ candle zone,
            candle ∈ slice_last 50 klineData
            ∧ zone ∈ zones
            ∧ SupplyDemandZone.isValid zone = true
            ∧ KlineData.low candle ≤ SupplyDemandZone.high zone
            ∧ SupplyDemandZone.low zone ≤ KlineData.high candle
            ∧ ((SupplyDemandZone.type zone = demand
                ∧ SupplyDemandZone.low zone < KlineData.close candle
                ∧ signal = demand_buy_signal candle zone)
               ∨ (SupplyDemandZone.type zone = supply
                  ∧ KlineData.close candle < SupplyDemandZone.high zone
                  ∧ signal = supply_sell_signal candle zone)))
    (detectSupplyDemandSignals klineData zones).
Proof.
  apply Forall_forall. intros signal Hs.
  apply detectSupplyDemandSignals_inv in Hs as (candle & zone & Hc & Hz & Hs).
  apply zone_signals_cases in Hs as (Hvalid & Hlow & Hhigh & Hcases).
  exists candle, zone. done.
Qed.

Lemma below_one_percent (x : Qc) : 0 < x → x * Q2Qc (99 # 100) < x.
Proof.
  intros Hx. rewrite <- (Qcmult_1_r x) at 2.
  apply Qcmult_lt_mono_pos_l; [done|]. by vm_compute.
Qed.

Lemma above_one_percent (x : Qc) : 0 < x → x < x * Q2Qc (101 # 100).
Proof.
  intros Hx. rewrite <- (Qcmult_1_r x) at 1.
  apply Qcmult_lt_mono_pos_l; [done|]. by vm_compute.
Qed.

Lemma twice_height_nonneg (lo hi : Qc) : lo ≤ hi → 0 ≤ (hi - lo) * 2.
Proof.
  intros Hle. apply Qcmult_nonneg_nonneg; [|by vm_compute].
  by apply Qcle_minus_iff in Hle.
Qed.

(** For zones with a positive low and [low ≤ high], every signal has its
    stop on the losing side of the entry price and its target beyond the
    zone: a buy has [stopLoss < price] and [takeProfit ≥ zoneHigh], a sell
    has [price < stopLoss] and [takeProfit ≤ zoneLow].  So the divisor of
    the reward-risk ratio is positive. *)
Theorem zone_signal_stops (klineData : list KlineData.t)
    (zones : list SupplyDemandZone.t) :
  Forall (λ zone, 0 < SupplyDemandZone.low zone
                  ∧ SupplyDemandZone.low zone ≤ SupplyDemandZone.high zone)
    zones →
  Forall (λ signal,
            match SupplyDemandSignal.type signal with
            | buy =>
                SupplyDemandSignal.stopLoss signal
                  < SupplyDemandSignal.price signal
                ∧ SupplyDemandZone.high (SupplyDemandSignal.zone signal)
                    ≤ SupplyDemandSignal.takeProfit signal
            | sell =>
                SupplyDemandSignal.price signal
                  < SupplyDemandSignal.stopLoss signal
                ∧ SupplyDemandSignal.takeProfit signal
                    ≤ SupplyDemandZone.low (SupplyDemandSignal.zone signal)
            end)
    (detectSupplyDemandSignals klineData zones).
Proof.
  intros Hzones. rewrite Forall_forall in Hzones.
  apply Forall_forall. intros signal Hs.
  apply detectSupplyDemandSignals_inv in Hs as (candle & zone & _ & Hz & Hs).
  destruct (Hzones zone Hz) as [Hpos Hband].
  apply zone_signals_cases in Hs
    as (_ & _ & _ & [(_ & Hclose & ->) | (_ & Hclose & ->)]); simpl.
  - split.
    + eapply Qclt_trans; [by apply below_one_percent|done].
    + rewrite (Qcmult_comm 2).
      rewrite <- (Qcplus_0_r (SupplyDemandZone.high zone)) at 1.
      apply Qcplus_le_mono_l. by apply twice_height_nonneg.
  - split.
    + eapply Qclt_trans; [done|]. apply above_one_percent.
      by eapply Qclt_le_trans.
    + rewrite (Qcmult_comm 2).
      apply Qcle_minus_iff.
      replace (SupplyDemandZone.low zone
               + - (SupplyDemandZone.low zone
                    - (SupplyDemandZone.high zone - SupplyDemandZone.low zone)
                      * 2))
        with ((SupplyDemandZone.high zone - SupplyDemandZone.low zone) * 2)
        by ring.
      by apply twice_height_nonneg.
Qed.

Lemma zone_signal_stops_witness :
  Forall (λ signal,
            match SupplyDemandSignal.type signal with
            | buy =>
                SupplyDemandSignal.stopLoss signal
                  < SupplyDemandSignal.price signal
                ∧ SupplyDemandZone.high (SupplyDemandSignal.zone signal)
                    ≤ SupplyDemandSignal.takeProfit signal
            | sell =>
                SupplyDemandSignal.price signal
                  < SupplyDemandSignal.stopLoss signal
                ∧ SupplyDemandSignal.takeProfit signal
                    ≤ SupplyDemandZone.low (SupplyDemandSignal.zone signal)
            end)
    (detectSupplyDemandSignals overlap_candles
       [zone_20_to_36; supply_sample]).
Proof.
  apply (zone_signal_stops overlap_candles [zone_20_to_36; supply_sample]).
  repeat (constructor; [split; by vm_compute|]). constructor.
Defined.

(** ** The state machine of the bounce scan *)

(** One bar: either nothing is pushed and the state is the one before the
    buy test, or one signal is pushed, the scan was waiting before the test
    and the state is reset. *)
Lemma bounce_step_cases (env : BounceEnv.t) (i : nat)
    (st st' : BounceState.t) (pushed : list EMABounceSignal.t) :
  bounce_step env i st = Some (st', pushed) →
  (pushed = [] ∧ st' = state_before_test env i st)
  ∨ (∃ signal, pushed = [signal]
       ∧ st' = BounceState.mk false 0
       ∧ BounceState.waitBounce (state_before_test env i st) = true
       ∧ fired_at env i signal).
Proof.
  unfold bounce_step, state_before_test, cross_up_at, bull_stack_at,
    fired_at, ema9_at, ema20_at, vwap_at.
  rewrite !Z.add_sub_assoc. intros Hstep.
  destruct (BounceEnv.klineData env !! _) as [current|]; [|done].
  simpl in Hstep.
  destruct (BounceEnv.macdData env !! i) as [macd|]; [|done].
  simpl in Hstep.
  destruct (_ && bool_decide (MACDData.signal _ < MACDData.macd _))
    eqn:Hfire in Hstep; [|injection Hstep as <- <-; by left].
  right.
  apply andb_prop in Hfire as [Hfire Hosc].
  apply andb_prop in Hfire as [Hfire Hvwap].
  apply andb_prop in Hfire as [Hwait Hbounce].
  pose proof Hwait as Hwait'.
  match type of Hwait' with
  | BounceState.waitBounce (if ?c then _ else _) = true =>
      destruct c eqn:Hreset; [done|]
  end.
  apply orb_false_elim in Hreset as [Hstack%negb_false_iff _].
  apply andb_prop in Hstack as [H20 H200].
  apply andb_prop in Hbounce as [Hlow Hclose].
  apply num_lt_Some in H20 as (e20 & e9 & He20 & He9 & Hlt20).
  apply num_lt_Some in H200 as (e200 & e20' & He200 & He20' & Hlt200).
  rewrite He20 in He20'. injection He20' as <-.
  rewrite He9 in Hlow, Hclose. simpl in Hlow.
  apply bool_decide_eq_true_1 in Hlow, Hclose, Hvwap, Hosc.
  rewrite He9, He20, He200 in Hstep. simpl in Hstep.
  injection Hstep as <- <-.
  eexists. split; [done|]. split; [done|]. split; [exact Hwait|].
  exists current, macd. simpl.
  rewrite He9, He20, He200. simpl.
  rewrite !bool_decide_eq_true_2 by done.
  repeat split; done.
Qed.

Lemma state_before_test_armed (env : BounceEnv.t) (lo i : nat)
    (st : BounceState.t) :
  (lo ≤ i)%nat →
  armed_before env lo i st →
  BounceState.waitBounce (state_before_test env i st) = true →
  ∃ j, (lo ≤ j ≤ i)%nat
    ∧ BounceState.barsWaited (state_before_test env i st) = Z.of_nat (i - j)
    ∧ cross_up_at env j = true
    ∧ (∀ k, (j ≤ k ≤ i)%nat → bull_stack_at env k = true)
    ∧ ((0 < BounceEnv.maxWait env)%Z →
       (Z.of_nat (i - j) ≤ BounceEnv.maxWait env)%Z).
Proof.
  intros Hlo Harmed. unfold state_before_test.
  destruct (bull_stack_at env i) eqn:Hstack; [|done]. simpl.
  destruct (cross_up_at env i) eqn:Hcross.
  - simpl. destruct (bool_decide (0 < _)%Z && _) eqn:Hmax; [done|].
    intros _. exists i. split; [lia|]. simpl.
    split; [f_equal; lia|]. split; [done|]. split.
    + intros k Hk. by replace k with i by lia.
    + intros Hpos. lia.
  - destruct (BounceState.waitBounce st) eqn:Hwait.
    + destruct (Harmed Hwait) as (j & Hj & Hbars & Hcj & Hstackj).
      simpl. destruct (bool_decide (0 < _)%Z && _) eqn:Hmax; [done|].
      intros _. exists j. split; [lia|]. simpl. rewrite Hbars.
      split; [lia|]. split; [done|]. split.
      * intros k Hk. destruct (decide (k = i)) as [->|]; [done|].
        apply Hstackj. lia.
      * intros Hpos. apply andb_false_iff in Hmax as [Hmax|Hmax].
        -- apply bool_decide_eq_false_1 in Hmax. lia.
        -- apply bool_decide_eq_false_1 in Hmax. lia.
    + destruct (bool_decide (0 < _)%Z && _); [done|]. by rewrite Hwait.
Qed.

Lemma bounce_step_armed (env : BounceEnv.t) (lo i : nat)
    (st st' : BounceState.t) (pushed : list EMABounceSignal.t) :
  (lo ≤ i)%nat →
  armed_before env lo i st →
  bounce_step env i st = Some (st', pushed) →
  armed_before env lo (S i) st'.
Proof.
  intros Hlo Harmed Hstep.
  apply bounce_step_cases in Hstep
    as [[_ ->] | (signal & _ & -> & _)]; [|done].
  intros Hwait.
  destruct (state_before_test_armed env lo i st Hlo Harmed Hwait)
    as (j & Hj & Hbars & Hcross & Hstack & _).
  exists j. split; [lia|]. rewrite Hbars. split; [f_equal; lia|].
  split; [done|]. intros k Hk. apply Hstack. lia.
Qed.

(** Every signal of the loop fires on a bar of the loop, after a cross that
    armed the scan. *)
Lemma bounce_loop_history (env : BounceEnv.t) (lo : nat) (n : nat) :
  ∀ a st signals,
    (lo ≤ a)%nat →
    armed_before env lo a st →
    bounce_loop env (seq a n) st = Some signals →
    Forall (λ signal, ∃ i j,
              (lo ≤ j ≤ i)%nat ∧ (a ≤ i < a + n)%nat
              ∧ cross_up_at env j = true
              ∧ (∀ k, (j ≤ k ≤ i)%nat → bull_stack_at env k = true)
              ∧ ((0 < BounceEnv.maxWait env)%Z →
                 (Z.of_nat (i - j) ≤ BounceEnv.maxWait env)%Z)
              ∧ fired_at env i signal) signals.
Proof.
  induction n as [|n IH]; intros a st signals Hlo Harmed Hloop;
    simpl in Hloop.
  - injection Hloop as <-. constructor.
  - destruct (bounce_step env a st) as [[st' pushed]|] eqn:Hstep; [|done].
    simpl in Hloop.
    destruct (bounce_loop env (seq (S a) n) st') as [later|] eqn:Hlater;
      [|done].
    injection Hloop as <-.
    pose proof (bounce_step_armed env lo a st st' pushed Hlo Harmed Hstep)
      as Harmed'.
    apply Forall_app. split.
    + apply bounce_step_cases in Hstep
        as [[-> _] | (signal & -> & _ & Hwait & Hfired)]; [constructor|].
      constructor; [|constructor].
      destruct (state_before_test_armed env lo a st Hlo Harmed Hwait)
        as (j & Hj & _ & Hcross & Hstack & Hmax).
      exists a, j. repeat split; try done; lia.
    + eapply Forall_impl; [apply (IH (S a) st' later); [lia|done|done]|].
      simpl. intros signal (i & j & Hj & Hi & Hrest).
      exists i, j. split; [done|]. split; [lia|done].
Qed.

Lemma bounce_loop_length (env : BounceEnv.t) (indices : list nat) :
  ∀ st signals,
    bounce_loop env indices st = Some signals →
    (length signals ≤ length indices)%nat.
Proof.
  induction indices as [|i rest IH]; intros st signals Hloop; simpl in Hloop.
  - injection Hloop as <-. done.
  - destruct (bounce_step env i st) as [[st' pushed]|] eqn:Hstep; [|done].
    simpl in Hloop.
    destruct (bounce_loop env rest st') as [later|] eqn:Hlater; [|done].
    injection Hloop as <-. apply IH in Hlater.
    rewrite length_app. simpl.
    apply bounce_step_cases in Hstep as [[-> _] | (signal & -> & _)];
      simpl; lia.
Qed.

(** What a returned list of [detectEMABounceSignal] is: empty on a short
    history, the result of the loop otherwise. *)
Lemma detectEMABounceSignal_inv (now : nat → Z)
    (klineData : list KlineData.t) (vwapData : list VWAPData.t)
    (fastLen medLen slowLen macdFast macdSlow macdSig : nat)
    (tolPct : Qc) (maxWait : Z) (signals : list EMABounceSignal.t) :
  detectEMABounceSignal now klineData vwapData fastLen medLen slowLen
    macdFast macdSlow macdSig tolPct maxWait = Some signals →
  ((length klineData < slowLen)%nat ∧ signals = [])
  ∨ ∃ macdData,
      (slowLen ≤ length klineData)%nat
      ∧ calculateMACD now (KlineData.close <$> klineData)
          macdFast macdSlow macdSig = Some macdData
      ∧ bounce_loop
          (bounce_env klineData vwapData fastLen medLen slowLen macdData
             tolPct maxWait)
          (seq 1
             (BounceEnv.minLength
                (bounce_env klineData vwapData fastLen medLen slowLen
                   macdData tolPct maxWait) - 1))
          BounceState.initial = Some signals.
Proof.
  unfold detectEMABounceSignal. case_decide as Hlen.
  - intros [= <-]. by left.
  - destruct (calculateMACD _ _ _ _ _) as [macdData|]; [|done]. simpl.
    intros Hloop. right. exists macdData. split; [lia|]. by split.
Qed.

(** Every signal of [detectEMABounceSignal] fires after a cross of the
    fast average over the medium one: at a bar [j] the cross armed the
    scan, the averages were stacked bullishly on every bar from [j] to the
    bar [i] of the signal, [i] is at most [maxWait] bars after [j] when
    [maxWait] is positive, and at [i] all tests of the bar hold. *)
Theorem bounce_signal_follows_cross_up (now : nat → Z)
    (klineData : list KlineData.t) (vwapData : list VWAPData.t)
    (fastLen medLen slowLen macdFast macdSlow macdSig : nat)
    (tolPct : Qc) (maxWait : Z) (signals : list EMABounceSignal.t) :
  detectEMABounceSignal now klineData vwapData fastLen medLen slowLen
    macdFast macdSlow macdSig tolPct maxWait = Some signals →
  signals = []
  ∨ ∃ macdData,
      calculateMACD now (KlineData.close <$> klineData)
        macdFast macdSlow macdSig = Some macdData
      ∧ Forall
          (fired_after_cross
             (bounce_env klineData vwapData fastLen medLen slowLen macdData
                tolPct maxWait)) signals.
Proof.
  intros [[_ ->] | (macdData & _ & Hmacd & Hloop)]%detectEMABounceSignal_inv;
    [by left|].
  right. exists macdData. split; [done|].
  apply (bounce_loop_history _ 1) in Hloop; [|done|done].
  eapply Forall_impl; [exact Hloop|].
  intros signal (i & j & Hj & Hi & Hcross & Hstack & Hmax & Hfired).
  exists i, j. split; [done|]. split; [lia|]. done.
Qed.

Lemma bounce_signal_follows_cross_up_witness :
  ∃ signal macdData,
    detectEMABounceSignal (λ _, 0%Z) bounce_candles
      (calculateVWAP bounce_candles) 9 20 200 12 26 9
      default_tolPct default_maxWait = Some [signal]
    ∧ calculateMACD (λ _, 0%Z) (KlineData.close <$> bounce_candles) 12 26 9
        = Some macdData
    ∧ fired_after_cross
        (bounce_env bounce_candles (calculateVWAP bounce_candles) 9 20 200
           macdData default_tolPct default_maxWait) signal.
Proof.
  destruct bounce_sample_fires as (signal & Hrun & _).
  destruct (bounce_signal_follows_cross_up _ _ _ _ _ _ _ _ _ _ _ _ Hrun)
    as [Hnil | (macdData & Hmacd & Hfired)]; [discriminate Hnil|].
  apply Forall_cons in Hfired as [Hfired _].
  exists signal, macdData. exact (conj Hrun (conj Hmacd Hfired)).
Defined.

(** A bar that fires leaves the fast average over the medium one, so the
    next bar sees no cross. *)
Lemma fired_blocks_cross (env : BounceEnv.t) (i : nat)
    (signal : EMABounceSignal.t) :
  fired_at env i signal → cross_up_at env (S i) = false.
Proof.
  intros (current & macd & _ & _ & H9 & H20 & _ & _ & _ & _ & _ & _ & _ & _
          & Hlt & _).
  unfold cross_up_at.
  replace (Z.of_nat (S i) - 1)%Z with (Z.of_nat i) by lia.
  rewrite H9, H20. simpl.
  rewrite bool_decide_eq_false_2; [done|]. by apply Qclt_not_le.
Qed.

Lemma blocked_does_not_wait (env : BounceEnv.t) (i : nat)
    (st : BounceState.t) :
  blocked_at env i st →
  BounceState.waitBounce (state_before_test env i st) = false.
Proof.
  intros [Hwait Hcross]. unfold state_before_test.
  rewrite Hcross, Hwait. by destruct (_ || _).
Qed.

(** The signals of the loop belong to bars of the loop, one bar each, and
    the bars are at least two apart. *)
Lemma bounce_loop_bars (env : BounceEnv.t) (n : nat) :
  ∀ a st signals,
    bounce_loop env (seq a n) st = Some signals →
    ∃ bars,
      fired_on_bars env bars signals
      ∧ Forall (λ i, (a ≤ i < a + n)%nat) bars
      ∧ (blocked_at env a st → Forall (λ i, (a + 1 ≤ i)%nat) bars).
Proof.
  induction n as [|n IH]; intros a st signals Hloop; simpl in Hloop.
  - injection Hloop as <-. exists []. repeat split; constructor.
  - destruct (bounce_step env a st) as [[st' pushed]|] eqn:Hstep; [|done].
    simpl in Hloop.
    destruct (bounce_loop env (seq (S a) n) st') as [later|] eqn:Hlater;
      [|done].
    injection Hloop as <-.
    destruct (IH _ _ _ Hlater) as (bars & [Hfired Hgaps] & Hrange & Hblocked).
    apply bounce_step_cases in Hstep
      as [[-> ->] | (signal & -> & -> & Hwait & Hsignal)].
    + exists bars. split; [done|]. split.
      * eapply Forall_impl; [exact Hrange|]. simpl. lia.
      * intros _. eapply Forall_impl; [exact Hrange|]. simpl. lia.
    + assert (Forall (λ i, (S a + 1 ≤ i)%nat) bars) as Hfar.
      { apply Hblocked. split; [done|]. by eapply fired_blocks_cross. }
      exists (a :: bars). split; [split|split].
      * by constructor.
      * constructor; [done|].
        eapply Forall_impl; [exact Hfar|]. simpl. lia.
      * constructor; [lia|].
        eapply Forall_impl; [exact Hrange|]. simpl. lia.
      * intros Hno%blocked_does_not_wait. congruence.
Qed.

Lemma spaced_bars_count (b : nat) (bars : list nat) :
  ∀ a,
    StronglySorted (λ i j, (i + 2 ≤ j)%nat) bars →
    Forall (λ i, (a ≤ i < b)%nat) bars →
    bars ≠ [] →
    (2 * length bars + a ≤ b + 1)%nat.
Proof.
  induction bars as [|i rest IH]; intros a Hgaps Hrange Hne; [done|].
  apply StronglySorted_inv in Hgaps as [Hgaps Hfar].
  apply Forall_cons in Hrange as [Hi Hrange].
  destruct rest as [|i' rest]; [simpl; lia|].
  assert (Forall (λ k, (i + 2 ≤ k < b)%nat) (i' :: rest)) as Hrest.
  { apply Forall_forall. intros k Hk.
    pose proof (proj1 (Forall_forall _ _) Hfar k Hk).
    pose proof (proj1 (Forall_forall _ _) Hrange k Hk). simpl in *. lia. }
  specialize (IH (i + 2)%nat Hgaps Hrest ltac:(done)).
  simpl in *. lia.
Qed.

(** The signals of [detectEMABounceSignal] belong to bars of its loop, one
    bar each and in the order of the bars, and two signals are never on
    adjacent bars: after a signal the fast average is over the medium one,
    so the next bar cannot arm the scan again. *)
Theorem bounce_signals_two_bars_apart (now : nat → Z)
    (klineData : list KlineData.t) (vwapData : list VWAPData.t)
    (fastLen medLen slowLen macdFast macdSlow macdSig : nat)
    (tolPct : Qc) (maxWait : Z) (signals : list EMABounceSignal.t) :
  detectEMABounceSignal now klineData vwapData fastLen medLen slowLen
    macdFast macdSlow macdSig tolPct maxWait = Some signals →
  signals = []
  ∨ ∃ macdData bars,
      calculateMACD now (KlineData.close <$> klineData)
        macdFast macdSlow macdSig = Some macdData
      ∧ fired_on_bars
          (bounce_env klineData vwapData fastLen medLen slowLen macdData
             tolPct maxWait) bars signals
      ∧ Forall (λ i, (1 ≤ i)%nat) bars.
Proof.
  intros [[_ ->] | (macdData & _ & Hmacd & Hloop)]%detectEMABounceSignal_inv;
    [by left|].
  right. apply bounce_loop_bars in Hloop as (bars & Hfired & Hrange & _).
  exists macdData, bars. split; [done|]. split; [done|].
  eapply Forall_impl; [exact Hrange|]. simpl. lia.
Qed.

Lemma bounce_signals_two_bars_apart_witness :
  ∃ signal macdData bars,
    detectEMABounceSignal (λ _, 0%Z) bounce_candles
      (calculateVWAP bounce_candles) 9 20 200 12 26 9
      default_tolPct default_maxWait = Some [signal]
    ∧ calculateMACD (λ _, 0%Z) (KlineData.close <$> bounce_candles) 12 26 9
        = Some macdData
    ∧ fired_on_bars
        (bounce_env bounce_candles (calculateVWAP bounce_candles) 9 20 200
           macdData default_tolPct default_maxWait) bars [signal].
Proof.
  destruct bounce_sample_fires as (signal & Hrun & _).
  destruct (bounce_signals_two_bars_apart _ _ _ _ _ _ _ _ _ _ _ _ Hrun)
    as [Hnil | (macdData & bars & Hmacd & Hfired & _)]; [discriminate Hnil|].
  exists signal, macdData, bars. exact (conj Hrun (conj Hmacd Hfired)).
Defined.

(** [detectEMABounceSignal] returns at most one signal for every two
    candles after the warm-up of the slow average: twice the number of
    signals is at most [length klineData + 1 - slowLen]. *)
Theorem bounce_signal_count (now : nat → Z)
    (klineData : list KlineData.t) (vwapData : list VWAPData.t)
    (fastLen medLen slowLen macdFast macdSlow macdSig : nat)
    (tolPct : Qc) (maxWait : Z) (signals : list EMABounceSignal.t) :
  detectEMABounceSignal now klineData vwapData fastLen medLen slowLen
    macdFast macdSlow macdSig tolPct maxWait = Some signals →
  (2 * length signals ≤ length klineData + 1 - slowLen)%nat.
Proof.
  intros [[_ ->] | (macdData & Hlong & _ & Hloop)]%detectEMABounceSignal_inv;
    [simpl; lia|].
  apply bounce_loop_bars in Hloop as (bars & [Hfired Hgaps] & Hrange & _).
  rewrite <- (Forall2_length _ _ _ Hfired).
  destruct bars as [|i bars]; [simpl; lia|].
  pose proof (spaced_bars_count _ _ 1%nat Hgaps Hrange ltac:(done))
    as Hcount.
  revert Hcount. unfold bounce_env. simpl BounceEnv.minLength.
  rewrite length_calculateEMA, length_fmap.
  rewrite decide_False by lia. lia.
Qed.

Lemma bounce_signal_count_witness :
  ∃ signal,
    detectEMABounceSignal (λ _, 0%Z) bounce_candles
      (calculateVWAP bounce_candles) 9 20 200 12 26 9
      default_tolPct default_maxWait = Some [signal]
    ∧ (2 * length [signal] ≤ length bounce_candles + 1 - 200)%nat.
Proof.
  destruct bounce_sample_fires as (signal & Hrun & _).
  exists signal. split; [exact Hrun|].
  exact (bounce_signal_count _ _ _ _ _ _ _ _ _ _ _ _ Hrun).
Defined.

(** The number of bars of the scan when the slow average is the shortest of
    the three arrays it is aligned with. *)
Lemma bounce_env_minLength (klineData : list KlineData.t)
    (vwapData : list VWAPData.t) (fastLen medLen slowLen : nat)
    (macdData : list MACDData.t) (tolPct : Qc) (maxWait : Z) :
  (1 ≤ slowLen ≤ length klineData)%nat →
  length vwapData = length klineData →
  (length klineData + 1 - slowLen ≤ length macdData)%nat →
  BounceEnv.minLength
    (bounce_env klineData vwapData fastLen medLen slowLen macdData
       tolPct maxWait)
  = (length klineData + 1 - slowLen)%nat.
Proof.
  intros Hslow Hvwap Hmacd. unfold bounce_env.
  cbn [BounceEnv.minLength].
  rewrite length_calculateEMA, length_fmap, decide_False by lia. lia.
Qed.

(** Which candle the evidence of a signal belongs to, when the scan is run
    on one VWAP point per candle and the slow average has the longest
    warm-up ([fastLen], [medLen] and [macdSlow + macdSig - 1] are at most
    [slowLen]).  The signal of the candle [c] carries the price, the three
    averages and the VWAP of [c]; its oscillator, read at the bar index and
    not from the end of the MACD array, is the one of the candle
    [slowLen + 1 - (macdSlow + macdSig)] positions before [c]. *)
Theorem bounce_evidence_alignment (now : nat → Z)
    (klineData : list KlineData.t) (vwapData : list VWAPData.t)
    (fastLen medLen slowLen macdFast macdSlow macdSig : nat)
    (tolPct : Qc) (maxWait : Z) (signals : list EMABounceSignal.t) :
  detectEMABounceSignal now klineData vwapData fastLen medLen slowLen
    macdFast macdSlow macdSig tolPct maxWait = Some signals →
  length vwapData = length klineData →
  (fastLen ≤ slowLen)%nat → (medLen ≤ slowLen)%nat → (1 ≤ slowLen)%nat →
  (macdFast ≤ macdSlow)%nat → (1 ≤ macdSig)%nat →
  (macdSlow + macdSig ≤ slowLen + 1)%nat →
  let closePrices := KlineData.close <$> klineData in
  let lag := (slowLen + 1 - (macdSlow + macdSig))%nat in
  Forall (λ signal, ∃ c candle point,
            (slowLen ≤ c)%nat
            ∧ klineData !! c = Some candle
            ∧ vwapData !! c = Some point
            ∧ EMABounceSignal.timestamp signal = KlineData.closeTime candle
            ∧ EMABounceSignal.price signal = KlineData.close candle
            ∧ ema_at_candle closePrices fastLen c
                = Some (EMABounceSignal.ema9 signal)
            ∧ ema_at_candle closePrices medLen c
                = Some (EMABounceSignal.ema20 signal)
            ∧ ema_at_candle closePrices slowLen c
                = Some (EMABounceSignal.ema200 signal)
            ∧ EMABounceSignal.vwap signal = VWAPData.vwap point
            ∧ macd_at_candle closePrices macdFast macdSlow (c - lag)
                = Some (EMABounceSignal.macdLine signal)) signals.
Proof.
  intros Hrun Hvwap Hfast Hmed Hslow Hperiods Hsig Hlag closePrices lag.
  apply detectEMABounceSignal_inv in Hrun
    as [[_ ->] | (macdData & Hlong & Hmacd & Hloop)]; [constructor|].
  destruct (calculateMACD_structure now closePrices macdFast macdSlow
              macdSig Hperiods Hsig)
    as (macdLine & points & Hrun & Hlen & Hline & Hlen' & Hpoints).
  unfold closePrices in Hrun. rewrite Hmacd in Hrun. injection Hrun as <-.
  rewrite length_calculateEMA, Hlen in Hlen'.
  unfold closePrices in Hlen'. rewrite length_fmap in Hlen'.
  rewrite decide_False in Hlen' by lia.
  pose proof (bounce_env_minLength klineData vwapData fastLen medLen slowLen
                macdData tolPct maxWait) as HM.
  rewrite HM in Hloop by lia.
  apply (bounce_loop_history _ 1) in Hloop; [|done|done].
  eapply Forall_impl; [exact Hloop|]. simpl.
  intros signal (i & j & Hj & Hi & _ & _ & _ & Hfired).
  destruct Hfired as (current & macd & Hcur & Hpoint & H9 & H20 & H200 & Hv
                      & Hts & _ & Hprice & Hline' & _).
  unfold ema9_at in H9. unfold ema20_at in H20. unfold vwap_at in Hv.
  rewrite HM in H9, H20, Hv by lia.
  unfold bounce_env in Hcur, H9, H20, H200, Hv, Hpoint.
  cbn [BounceEnv.klineData BounceEnv.startIndex BounceEnv.ema9
       BounceEnv.ema20 BounceEnv.ema200 BounceEnv.vwapData
       BounceEnv.macdData] in Hcur, H9, H20, H200, Hv, Hpoint.
  rewrite length_calculateEMA, length_fmap, decide_False in Hcur by lia.
  rewrite length_calculateEMA, length_fmap, decide_False in H9 by lia.
  rewrite length_calculateEMA, length_fmap, decide_False in H20 by lia.
  apply get_Z_Some in H9 as [_ H9]. apply get_Z_Some in H20 as [_ H20].
  assert (is_Some (vwapData !! (slowLen - 1 + i)%nat)) as [point Hpt].
  { apply lookup_lt_is_Some_2. lia. }
  exists (slowLen - 1 + i)%nat, current, point.
  split; [lia|]. split.
  { rewrite <- Hcur. f_equal. rewrite Hlen', Hvwap. lia. }
  split; [done|]. split; [done|]. split; [done|]. split.
  { unfold ema_at_candle. rewrite <- H9. f_equal. lia. }
  split.
  { unfold ema_at_candle. rewrite <- H20. f_equal. lia. }
  split.
  { unfold ema_at_candle. rewrite <- H200. f_equal. lia. }
  split.
  { rewrite Hv. unfold get_Z. rewrite decide_True by lia.
    replace (Z.to_nat _) with (slowLen - 1 + i)%nat by lia.
    by rewrite Hpt. }
  destruct (Hpoints i macd Hpoint) as (m & sig & Hm & _ & Hmm & _).
  destruct (Hline _ _ Hm) as (fast & slow & Hf & Hs & ->).
  unfold macd_at_candle, ema_at_candle.
  replace (slowLen - 1 + i - lag + 1 - macdFast)%nat
    with (i + (macdSig - 1) + (macdSlow - macdFast))%nat by (unfold lag; lia).
  replace (slowLen - 1 + i - lag + 1 - macdSlow)%nat
    with (i + (macdSig - 1))%nat by (unfold lag; lia).
  fold closePrices. rewrite Hf, Hs. simpl. by rewrite Hline', Hmm.
Qed.

Lemma bounce_evidence_alignment_witness :
  ∃ signal c candle,
    detectEMABounceSignal (λ _, 0%Z) bounce_candles
      (calculateVWAP bounce_candles) 9 20 200 12 26 9
      default_tolPct default_maxWait = Some [signal]
    ∧ (200 ≤ c)%nat
    ∧ bounce_candles !! c = Some candle
    ∧ EMABounceSignal.timestamp signal = KlineData.closeTime candle
    ∧ macd_at_candle (KlineData.close <$> bounce_candles) 12 26 (c - 166)
        = Some (EMABounceSignal.macdLine signal).
Proof.
  destruct bounce_sample_fires as (signal & Hrun & _).
  pose proof (bounce_evidence_alignment _ _ _ _ _ _ _ _ _ _ _ _ Hrun)
    as Haligned.
  assert (length (calculateVWAP bounce_candles) = length bounce_candles)
    as Hvwap by (vm_compute; reflexivity).
  specialize (Haligned Hvwap ltac:(lia) ltac:(lia) ltac:(lia) ltac:(lia)
                ltac:(lia) ltac:(lia)).
  apply Forall_cons in Haligned as [Haligned _].
  destruct Haligned as (c & candle & point & Hc & Hcandle & _ & Hts & _ & _
                        & _ & _ & _ & Hmacd).
  exists signal, c, candle.
  exact (conj Hrun (conj Hc (conj Hcandle (conj Hts Hmacd)))).
Defined.

(** ** The bundle of [analyzeData] *)

Lemma analyzeData_emaData_inv (now_macd now_bounce : nat → Z)
    (exchange : Exchange) (tradingType : TradingType) (symbol : string)
    (timeframe : Timeframe) (klineData : list KlineData.t)
    (result : Analysis.t) :
  analyzeData now_macd now_bounce exchange tradingType symbol timeframe
    klineData = Some result →
  let closePrices := KlineData.close <$> klineData in
  let ema9 := calculateEMA closePrices 9 in
  let ema20 := calculateEMA closePrices 20 in
  let ema200 := calculateEMA closePrices 200 in
  let minLength :=
    (length ema9 `min` (length ema20 `min` length ema200))%nat in
  mapM (ema_point_at klineData ema9 ema20 ema200 minLength
          (length klineData - minLength)) (seq 0 minLength)
  = Some (Analysis.emaData result).
Proof.
  unfold analyzeData. intros Hrun.
  destruct (mapM _ _) as [emaData|]; [|done]. simpl in Hrun.
  destruct (calculateMACD _ _ _ _ _) as [macdData|]; [|done].
  simpl in Hrun.
  destruct (detectSupplyDemandZones klineData) as [zones|]; [|done].
  simpl in Hrun.
  destruct (detectEMABounceSignal _ _ _ _ _ _ _ _ _ _ _) as [bounce|];
    [|done].
  by injection Hrun as <-.
Qed.

(** The three series of a bundle.  [emaData] has one point for each candle
    from the 200th on, and the point [i] carries the close time of the
    candle [199 + i] and the three averages of that candle; [vwapData] has
    one point per candle, and [macdData] one per candle from the 34th
    on. *)
Theorem analyzeData_series (now_macd now_bounce : nat → Z)
    (exchange : Exchange) (tradingType : TradingType) (symbol : string)
    (timeframe : Timeframe) (klineData : list KlineData.t)
    (result : Analysis.t) :
  analyzeData now_macd now_bounce exchange tradingType symbol timeframe
    klineData = Some result →
  let closePrices := KlineData.close <$> klineData in
  length (Analysis.emaData result) = (length klineData - 199)%nat
  ∧ length (Analysis.vwapData result) = length klineData
  ∧ length (Analysis.macdData result) = (length klineData - 33)%nat
  ∧ ∀ i point, Analysis.emaData result !! i = Some point →
      ∃ candle,
        klineData !! (199 + i)%nat = Some candle
        ∧ EMAData.timestamp point = KlineData.closeTime candle
        ∧ ema_at_candle closePrices 9 (199 + i) = Some (EMAData.ema9 point)
        ∧ ema_at_candle closePrices 20 (199 + i)
            = Some (EMAData.ema20 point)
        ∧ ema_at_candle closePrices 200 (199 + i)
            = Some (EMAData.ema200 point).
Proof.
  intros Hrun closePrices.
  pose proof (analyzeData_emaData_inv _ _ _ _ _ _ _ _ Hrun) as Hema.
  destruct (analyzeData_Some _ _ _ _ _ _ _ _ Hrun)
    as (Hmacd & _ & _ & Hvwap & _).
  simpl in Hema. fold closePrices in Hema.
  pose proof (length_calculateEMA closePrices 9) as H9.
  pose proof (length_calculateEMA closePrices 20) as H20.
  pose proof (length_calculateEMA closePrices 200) as H200.
  assert (length closePrices = length klineData) as Hcloses
    by apply length_fmap.
  rewrite Hcloses in H9, H20, H200.
  set (minLength :=
         (length (calculateEMA closePrices 9)
          `min` (length (calculateEMA closePrices 20)
                 `min` length (calculateEMA closePrices 200)))%nat) in *.
  assert (minLength = (length klineData - 199)%nat) as HM.
  { unfold minLength. repeat case_decide; lia. }
  clearbody minLength.
  split.
  { pose proof (length_mapM _ _ _ Hema) as Hlen.
    rewrite length_seq in Hlen. by rewrite <- Hlen. }
  split.
  { rewrite Hvwap. unfold calculateVWAP. apply length_vwap_loop. }
  split.
  { destruct (calculateMACD_structure now_macd closePrices 12 26 9)
      as (macdLine & points & Hrun' & Hlen & _ & Hlen' & _); [lia|lia|].
    fold closePrices in Hmacd. rewrite Hmacd in Hrun'.
    injection Hrun' as <-.
    rewrite Hlen', length_calculateEMA, Hlen, Hcloses.
    destruct (decide (length klineData + 1 - 26 < 9)%nat); lia. }
  intros i point Hi.
  apply mapM_Some_1 in Hema.
  destruct (Forall2_lookup_r _ _ _ _ _ Hema Hi) as (k & Hk & Hpoint).
  apply lookup_seq in Hk as [-> Hk]. simpl in Hpoint.
  unfold ema_point_at in Hpoint.
  destruct (klineData !! _) as [candle|] eqn:Hcandle; [|done].
  simpl in Hpoint.
  destruct (calculateEMA closePrices 9 !! _) as [e9|] eqn:He9; [|done].
  simpl in Hpoint.
  destruct (calculateEMA closePrices 20 !! _) as [e20|] eqn:He20; [|done].
  simpl in Hpoint.
  destruct (calculateEMA closePrices 200 !! _) as [e200|] eqn:He200; [|done].
  injection Hpoint as <-. simpl.
  exists candle. unfold ema_at_candle.
  split; [rewrite <- Hcandle; f_equal; lia|]. split; [done|].
  split; [rewrite <- He9; f_equal; repeat case_decide; lia|].
  split; [rewrite <- He20; f_equal; repeat case_decide; lia|].
  rewrite <- He200. f_equal. lia.
Qed.

Lemma analyzeData_series_witness :
  ∃ result,
    analyzeData (λ _, 0%Z) (λ _, 0%Z) bybit futures "ETHUSDT" tf_1m
      bounce_candles = Some result
    ∧ length (Analysis.emaData result) = (length bounce_candles - 199)%nat
    ∧ length (Analysis.vwapData result) = length bounce_candles
    ∧ length (Analysis.macdData result) = (length bounce_candles - 33)%nat.
Proof.
  destruct (analyzeData_total (λ _, 0%Z) (λ _, 0%Z) bybit futures "ETHUSDT"
              tf_1m bounce_candles) as [result Hrun].
  exists result. split; [exact Hrun|].
  destruct (analyzeData_series _ _ _ _ _ _ _ _ Hrun)
    as (Hema & Hvwap & Hmacd & _).
  exact (conj Hema (conj Hvwap Hmacd)).
Defined.

Lemma wrapped_id_well_formed (exchange : Exchange)
    (tradingType : TradingType) (symbol : string) (timeframe : Timeframe)
    (bounce : list EMABounceSignal.t) (zone : list SupplyDemandSignal.t)
    (signal : TradingSignal.t) :
  signal ∈ (wrap_bounce exchange tradingType symbol timeframe <$> bounce)
           ++ (wrap_zone exchange tradingType symbol timeframe <$> zone) →
  id_well_formed signal.
Proof.
  intros [Hb|Hz]%elem_of_app.
  - apply list_elem_of_fmap in Hb as (s & -> & _). done.
  - apply list_elem_of_fmap in Hz as (s & -> & _). done.
Qed.

(** The id of a signal of [allSignals] names its strategy and its
    timestamp and nothing else: two signals of a bundle have the same id
    exactly when they are of the same strategy and carry the same
    timestamp. *)
Theorem signal_ids_identify (now_macd now_bounce : nat → Z)
    (exchange : Exchange) (tradingType : TradingType) (symbol : string)
    (timeframe : Timeframe) (klineData : list KlineData.t)
    (result : Analysis.t) (first second : TradingSignal.t) :
  analyzeData now_macd now_bounce exchange tradingType symbol timeframe
    klineData = Some result →
  first ∈ Analysis.allSignals result →
  second ∈ Analysis.allSignals result →
  TradingSignal.id first = TradingSignal.id second
  ↔ TradingSignal.strategy first = TradingSignal.strategy second
    ∧ TradingSignal.timestamp first = TradingSignal.timestamp second.
Proof.
  intros Hrun Hfirst Hsecond.
  destruct (analyzeData_Some _ _ _ _ _ _ _ _ Hrun)
    as (_ & _ & _ & _ & _ & Hall).
  rewrite Hall in Hfirst, Hsecond.
  apply wrapped_id_well_formed in Hfirst, Hsecond.
  unfold id_well_formed in Hfirst, Hsecond. rewrite Hfirst, Hsecond.
  split.
  - destruct (TradingSignal.strategy first),
      (TradingSignal.strategy second); simpl; intros Hid; try done.
    + split; [done|]. injection Hid as Hid. by apply (inj pretty).
    + split; [done|]. injection Hid as Hid. by apply (inj pretty).
  - by intros [-> ->].
Qed.

Lemma signal_ids_identify_witness :
  ∃ result first second,
    analyzeData (λ _, 0%Z) (λ _, 0%Z) binance spot "BTCUSDT" tf_1m
      bounce_candles = Some result
    ∧ first ∈ Analysis.allSignals result
    ∧ second ∈ Analysis.allSignals result
    ∧ (TradingSignal.id first = TradingSignal.id second
       ↔ TradingSignal.strategy first = TradingSignal.strategy second
         ∧ TradingSignal.timestamp first = TradingSignal.timestamp second).
Proof.
  assert (length <$> (Analysis.allSignals
                        <$> analyzeData (λ _, 0%Z) (λ _, 0%Z) binance spot
                              "BTCUSDT" tf_1m bounce_candles)
          = Some 48%nat) as Hrun by (vm_compute; reflexivity).
  destruct (analyzeData _ _ _ _ _ _ _) as [result|] eqn:Hresult; [|done].
  simpl in Hrun.
  destruct (Analysis.allSignals result) as [|first [|second rest]] eqn:Hall;
    [done|done|].
  exists result, first, second.
  assert (first ∈ Analysis.allSignals result) as Hfirst
    by (rewrite Hall; apply list_elem_of_here).
  assert (second ∈ Analysis.allSignals result) as Hsecond
    by (rewrite Hall; apply list_elem_of_further, list_elem_of_here).
  split; [reflexivity|]. split; [exact Hfirst|]. split; [exact Hsecond|].
  exact (signal_ids_identify _ _ _ _ _ _ _ _ _ _ Hresult Hfirst Hsecond).
Defined.


(** * The exchange API *)

(** An exchange never gets the same interval string for two timeframes:
    [normalizeTimeframe] is injective in the timeframe, on Binance (where
    [1m] and [1M] differ in case only) and on Bybit. *)
Theorem normalizeTimeframe_inj (exchange : Exchange)
    (first second : Timeframe) :
  normalizeTimeframe exchange first = normalizeTimeframe exchange second
  ↔ first = second.
Proof.
  split; [|by intros ->].
  destruct exchange, first, second; simpl; intros Heq;
    first [reflexivity | discriminate Heq].
Qed.

Lemma getTimeframeMs_positive (timeframe : Timeframe) :
  (60000 ≤ getTimeframeMs timeframe)%Z.
Proof. destruct timeframe; simpl; lia. Qed.

(** A Bybit candle spans exactly its timeframe, from its start time to the
    millisecond before the next period, and it keeps the order of the
    rows: when the start times of the rows do not decrease, the close
    times of the candles are in chronological order, and a row that starts
    one timeframe after another opens on the millisecond after the other
    closes. *)
Theorem getBybitKlines_close_times (timeframe : Timeframe)
    (rows : list BybitKline.t) :
  Forall (λ candle,
            (KlineData.closeTime candle - KlineData.openTime candle + 1
             = getTimeframeMs timeframe)%Z
            ∧ (KlineData.openTime candle < KlineData.closeTime candle)%Z)
    (getBybitKlines timeframe rows)
  ∧ (StronglySorted Z.le (BybitKline.start <$> rows) →
     chronological (KlineData.closeTime <$> getBybitKlines timeframe rows))
  ∧ (∀ i earlier later,
       getBybitKlines timeframe rows !! i = Some earlier →
       getBybitKlines timeframe rows !! S i = Some later →
       (KlineData.openTime later
        = KlineData.openTime earlier + getTimeframeMs timeframe)%Z →
       (KlineData.openTime later = KlineData.closeTime earlier + 1)%Z).
Proof.
  pose proof (getTimeframeMs_positive timeframe) as Hms.
  unfold getBybitKlines. split; [|split].
  - apply Forall_fmap, Forall_forall. intros item _. simpl. lia.
  - unfold chronological. rewrite <- list_fmap_compose.
    induction rows as [|item rest IH]; simpl; [constructor|].
    intros [Hrest Hitem]%StronglySorted_inv.
    constructor; [by apply IH|].
    rewrite Forall_fmap in Hitem |- *.
    eapply Forall_impl; [exact Hitem|]. simpl. lia.
  - intros i earlier later Hearlier Hlater.
    apply list_lookup_fmap_Some in Hearlier as (item & -> & _).
    apply list_lookup_fmap_Some in Hlater as (item' & -> & _).
    simpl. lia.
Qed.

(** [makeAPICall] tries at most three times.  It returns the body of the
    first attempt that answers, after waiting 1000 ms times the number of
    the attempt after each failed one; when all three attempts fail it
    throws, without a further wait, the [ExchangeError] that carries the
    message of the third failure.  The [Error] after the loop is never
    thrown. *)
Theorem makeAPICall_retries {T : Type} (fetch : nat → Attempt T)
    (url : string) (exchange : Exchange) (now : Z) :
  (∃ k data,
     (1 ≤ k ≤ 3)%nat
     ∧ fetch k = Answered data
     ∧ (∀ j, (1 ≤ j < k)%nat → failed (fetch j))
     ∧ makeAPICall fetch url exchange now
       = ((λ j, (1000 * Z.of_nat j)%Z) <$> seq 1 (k - 1), inr data))
  ∨ (∃ errorMsg,
       fetch 3%nat = Failed errorMsg
       ∧ (∀ j, (1 ≤ j < 3)%nat → failed (fetch j))
       ∧ makeAPICall fetch url exchange now
         = ([1000%Z; 2000%Z],
            inl (exchange_error
                   (ExchangeError.mk exchange url
                      ("Failed after 3 attempts: " +:+ errorMsg) now)))).
Proof.
  unfold makeAPICall. simpl.
  destruct (fetch 1%nat) as [data1|msg1] eqn:H1.
  { left. exists 1%nat, data1. split; [lia|]. split; [done|].
    split; [intros j Hj; lia|done]. }
  destruct (fetch 2%nat) as [data2|msg2] eqn:H2.
  { left. exists 2%nat, data2. split; [lia|]. split; [done|]. split; [|done].
    intros j Hj. replace j with 1%nat by lia. by exists msg1. }
  assert (∀ j, (1 ≤ j < 3)%nat → failed (fetch j)) as Hfailed.
  { intros j Hj.
    destruct (decide (j = 1%nat)) as [->|]; [by exists msg1|].
    replace j with 2%nat by lia. by exists msg2. }
  destruct (fetch 3%nat) as [data3|msg3] eqn:H3.
  { left. exists 3%nat, data3. split; [lia|]. split; [done|]. by split. }
  right. exists msg3. split; [done|]. by split.
Qed.

Lemma getAllTickers_loop_spec {T : Type} (fetch : nat → string → option T)
    (symbols : list string) (fuel : nat) :
  ∀ i tickers pauses,
    (length symbols - i < fuel)%nat →
    getAllTickers_loop fuel fetch symbols i tickers pauses
    = Some (tickers
              ++ omap id (imap (λ k symbol, fetch (i + k)%nat symbol)
                            (drop i symbols)),
            pauses
              ++ replicate ((length symbols - i - 1) / 10) 200%Z).
Proof.
  induction fuel as [|fuel IH]; intros i tickers pauses Hfuel.
  - lia.
  - cbn [getAllTickers_loop]. destruct (decide (i < length symbols)%nat) as [Hi|Hi].
    + rewrite IH by (unfold batchSize; lia).
      unfold batchSize. f_equal. f_equal.
      * rewrite <- (take_drop 10 (drop i symbols)) at 2.
        rewrite imap_app, omap_app, drop_drop, <- app_assoc.
        f_equal. f_equal. f_equal.
        rewrite length_take, length_drop.
        destruct (decide (i + 10 < length symbols)%nat).
        -- apply imap_ext. intros k symbol _. f_equal. lia.
        -- by rewrite !drop_ge by lia.
      * destruct (decide (i + 10 < length symbols)%nat).
        -- rewrite <- app_assoc. f_equal.
           replace (length symbols - i - 1)%nat
             with (length symbols - (i + 10) - 1 + 1 * 10)%nat by lia.
           by rewrite Nat.div_add by lia; rewrite Nat.add_1_r.
        -- rewrite !Nat.div_small by lia. done.
    + rewrite drop_ge, Nat.div_small by lia. simpl.
      by rewrite !app_nil_r.
Qed.

(** Batching is transparent to the result of [getAllTickers]: it returns
    the tickers of the requests that succeed, in the order of the symbols,
    whatever the batches are, and it pauses for 200 ms once between two
    batches of ten, never after the last batch. *)
Theorem getAllTickers_batches {T : Type} (fetch : nat → string → option T)
    (symbols : list string) :
  getAllTickers fetch symbols
  = Some (omap id (imap fetch symbols),
          replicate ((length symbols - 1) / 10) 200%Z).
Proof.
  unfold getAllTickers. rewrite getAllTickers_loop_spec by lia.
  rewrite drop_0, Nat.sub_0_r. done.
Qed.
